(** * SevaSetu: points ledger, badges, task lifecycle, volunteer roster, rank

    A shallow embedding of the gamification and workflow core of the
    SevaSetu backend (mongoose models and express routes):

    - [models/User.js]   : [addPoints], [checkAndAwardBadges]
    - task model         : [updateProgress], [assignTo], [complete],
                           [addDeliverable], [completeDeliverable]
    - [models/NGO.js]    : project [pre('save')], [addVolunteer],
                           [updateVolunteerStatus]
    - [routes/projects.js], [routes/tasks.js] : apply, volunteer status,
                           task completion and leaderboard rank handlers

    Modelling conventions.
    - Mongo collections are finite maps from [_id] to document ([gmap]).
    - Integer valued JS numbers (points, counters, counts) are [Z]. The
      one place where the code leaves the integers, the expression
      [Math.round((a / b) * 100)], is evaluated in IEEE 754 binary64 with
      the operations of [SpecFloat], as a JS engine does. A sum of
      integers is taken in [Z]; it is the Number binary64 addition gives
      while operands and sum stay within [-2^53, 2^53] ([add_of_Z],
      [to_Z_of_Z]), and the ledger properties carry that bound.
    - [Date] values are [Z] (milliseconds); every operation that stamps
      [new Date()] or a schema default [Date.now] takes the clock reading
      [now] as an argument.
    - [throw new Error(msg)] is the outcome [Thrown msg].
    - [this.save()] runs the schema's [pre('save')] hook on the document;
      writing the document to its collection is done by the handlers.

    The second part adds the NGO model ([addReview], [followerCount]),
    project funding ([addDonation], [fundingPercentage]), the follow,
    achievements and task progress handlers and the admin handlers (user
    status, NGO verification, project approval). Arguments are those the
    schema's validators admit; the one save that writes a value outside a
    schema enum, the rejection of a project, is modelled as failing. *)

From Stdlib Require Import ZArith List String Ascii Bool Lia.
From Stdlib Require Import Floats.SpecFloat.
From stdpp Require Import gmap strings list fin_maps.

Local Open Scope Z_scope.

Abbreviation ObjectId := N (only parsing).
Abbreviation Date := Z (only parsing).

(** How a method call ends: it returns, or [throw new Error(msg)]. A method
    that may throw is a function from the document to the outcome and the
    document as the call leaves it. *)
Inductive outcome : Type :=
| Returned
| Thrown (msg : string).

(** ** JS numbers *)
Module JS.

(** binary64 *)
Definition prec : Z := 53.
Definition emax : Z := 1024.

Abbreviation Number := spec_float (only parsing).

(** The Number denoting an integer (nearest-even beyond 2^53). *)
Definition of_Z (z : Z) : Number := binary_normalize prec emax z 0 false.

Definition div (x y : Number) : Number := SFdiv prec emax x y.
Definition mul (x y : Number) : Number := SFmul prec emax x y.

(** [Math.round]: the integral Number closest to [x], ties towards
    +infinity; NaN, the infinities and the zeros are returned as they
    are, and a negative [x >= -0.5] gives [-0]. *)
Definition Math_round (x : Number) : Number :=
  match x with
  | S754_finite s m e =>
      if 0 <=? e then x
      else
        let n := 2 ^ (- e) in
        let q := (2 * cond_Zopp s (Z.pos m) + n) `div` (2 * n) in
        if q =? 0 then S754_zero s else of_Z q
  | _ => x
  end.

(** The integer an integral finite Number denotes. *)
Definition to_Z (x : Number) : option Z :=
  match x with
  | S754_zero _ => Some 0
  | S754_finite s m e =>
      if 0 <=? e then Some (cond_Zopp s (Z.pos m) * 2 ^ e)
      else if (Z.pos m) `mod` 2 ^ (- e) =? 0
           then Some (cond_Zopp s (Z.pos m) `div` 2 ^ (- e))
           else None
  | _ => None
  end.

(** [Math.round((a / b) * 100)] on integer operands. *)
Definition round_percent (a b : Z) : Number :=
  Math_round (mul (div (of_Z a) (of_Z b)) (of_Z 100)).

(** [String.prototype.toLowerCase] on the ASCII range. *)
Definition lower (c : ascii) : ascii :=
  let n := nat_of_ascii c in
  if ((65 <=? n) && (n <=? 90))%nat then ascii_of_nat (n + 32) else c.

Fixpoint toLowerCase (s : string) : string :=
  match s with
  | EmptyString => EmptyString
  | String c r => String (lower c) (toLowerCase r)
  end.

(** [s.replace(' ', '-')]: a string pattern replaces the first match only. *)
Fixpoint replace_space (s : string) : string :=
  match s with
  | EmptyString => EmptyString
  | String c r =>
      if Ascii.eqb c " "%char then String "-"%char r
      else String c (replace_space r)
  end.

(** [x + y] in binary64. *)
Definition add (x y : Number) : Number := SFadd prec emax x y.

(** The integers of magnitude at most 2^53. Each of them is a Number, and
    a sum of two of them that is again one of them is computed exactly. *)
Definition safe (z : Z) : Prop := - 2 ^ 53 <= z <= 2 ^ 53.

(** The strings of the ASCII range: there the bytes of a string, its
    UTF-16 units and its characters are the same sequence. *)
Fixpoint is_ascii (s : string) : bool :=
  match s with
  | EmptyString => true
  | String c r => (nat_of_ascii c <? 128)%nat && is_ascii r
  end.

End JS.

(** ** models/User.js *)
Module User.

Record PointsEntry := {
  amount : Z;
  reason : string;
  date : Date;
  project : option ObjectId
}.

Record Points := {
  total : Z;
  earned : list PointsEntry
}.

Record Badge := {
  name : string;
  description : string;
  icon : string;
  earnedDate : Date
}.

Record Statistics := {
  projectsCompleted : Z;
  tasksCompleted : Z;
  hoursVolunteered : Z;
  impactScore : Z
}.

Record t := {
  points : Points;
  badges : list Badge;
  statistics : Statistics;
  isActive : bool
}.

Definition set_points (p : Points) (u : t) : t :=
  {| points := p; badges := badges u;
     statistics := statistics u; isActive := isActive u |}.

Definition set_badges (b : list Badge) (u : t) : t :=
  {| points := points u; badges := b;
     statistics := statistics u; isActive := isActive u |}.

Definition set_statistics (s : Statistics) (u : t) : t :=
  {| points := points u; badges := badges u;
     statistics := s; isActive := isActive u |}.

(** A document as the schema defaults create it. *)
Definition fresh : t :=
  {| points := {| total := 0; earned := [] |};
     badges := [];
     statistics := {| projectsCompleted := 0; tasksCompleted := 0;
                      hoursVolunteered := 0; impactScore := 0 |};
     isActive := true |}.

Record Threshold := {
  th_points : Z;
  th_name : string;
  th_description : string
}.

Definition badgeThresholds : list Threshold :=
  [ {| th_points := 100; th_name := "First Steps";
       th_description := "Completed first task" |};
    {| th_points := 500; th_name := "Bronze Contributor";
       th_description := "Earned 500 points" |};
    {| th_points := 1000; th_name := "Silver Contributor";
       th_description := "Earned 1000 points" |};
    {| th_points := 2000; th_name := "Gold Contributor";
       th_description := "Earned 2000 points" |};
    {| th_points := 5000; th_name := "Platinum Contributor";
       th_description := "Earned 5000 points" |} ].

Definition new_badge (now : Date) (badge : Threshold) : Badge :=
  {| name := th_name badge;
     description := th_description badge;
     icon := "badge-" ++ JS.replace_space (JS.toLowerCase (th_name badge));
     earnedDate := now |}.

(** [existingBadges] is read once, before the [forEach]; the loop pushes
    onto [this.badges]. *)
Definition checkAndAwardBadges (now : Date) (u : t) : t :=
  let points := total (points u) in
  let existingBadges := name <$> badges u in
  set_badges
    (fold_left
       (fun (bs : list Badge) badge =>
          if decide (points >= th_points badge
                     ∧ th_name badge ∉ existingBadges)
          then (bs ++ [new_badge now badge])%list
          else bs)
       badgeThresholds (badges u))
    u.

(** [this.points.total += amount] is an addition of Numbers. On integers
    the sum below, taken in [Z], is the Number the engine computes as long
    as total, amount and sum lie within [-2^53, 2^53]; [running64]
    evaluates the same statement in binary64 for any integers. *)
Definition addPoints (now : Date) (amount : Z) (reason : string)
    (projectId : option ObjectId) (u : t) : t :=
  let u1 :=
    set_points {| total := total (points u) + amount;
                  earned := earned (points u) |} u in
  let u2 :=
    set_points
      {| total := total (points u1);
         earned := (earned (points u1)
                     ++ [ {| amount := amount; reason := reason;
                             date := now; project := projectId |} ])%list |}
      u1 in
  checkAndAwardBadges now u2.

(** The virtual [currentBadge]. *)
Definition currentBadge (u : t) : string * string :=
  let points := total (points u) in
  if points >=? 2000 then ("Gold", "#FFD700")
  else if points >=? 1000 then ("Silver", "#C0C0C0")
  else if points >=? 500 then ("Bronze", "#CD7F32")
  else ("Newcomer", "#808080").

End User.

(** ** Task model *)
Module Task.

Inductive Status :=
| pending | assigned | in_progress | completed | cancelled | on_hold.

Inductive DeliverableStatus := d_pending | d_in_progress | d_completed.

#[global] Instance Status_eq_dec : EqDecision Status.
Proof. solve_decision. Defined.

#[global] Instance DeliverableStatus_eq_dec : EqDecision DeliverableStatus.
Proof. solve_decision. Defined.

Record File := {
  filename : string;
  path : string;
  uploadDate : Date
}.

Record Attachment := {
  a_filename : string;
  a_path : string;
  a_type : string
}.

Record Deliverable := {
  d_id : ObjectId;
  d_name : string;
  d_description : string;
  d_type : string;
  d_status : DeliverableStatus;
  d_file : option File
}.

Record Update := {
  message : string;
  date : Date;
  updatedBy : ObjectId;
  attachments : list Attachment
}.

(** [estimatedHours] and [actualHours] carry the validator [min: 0]. *)
Record Timeline := {
  startDate : Date;
  dueDate : Date;
  completedDate : option Date;
  actualHours : N
}.

Record Progress := {
  percentage : JS.Number;
  updates : list Update
}.

Record Points := {
  base : Z;
  bonus : Z;
  total : Z
}.

Record t := {
  project : ObjectId;
  assignedTo : option ObjectId;
  assignedBy : ObjectId;
  status : Status;
  timeline : Timeline;
  deliverables : list Deliverable;
  progress : Progress;
  points : Points
}.

Definition set_assignedTo (a : option ObjectId) (k : t) : t :=
  {| project := project k; assignedTo := a; assignedBy := assignedBy k;
     status := status k; timeline := timeline k;
     deliverables := deliverables k; progress := progress k;
     points := points k |}.

Definition set_status (s : Status) (k : t) : t :=
  {| project := project k; assignedTo := assignedTo k;
     assignedBy := assignedBy k;
     status := s; timeline := timeline k;
     deliverables := deliverables k; progress := progress k;
     points := points k |}.

Definition set_timeline (tl : Timeline) (k : t) : t :=
  {| project := project k; assignedTo := assignedTo k;
     assignedBy := assignedBy k;
     status := status k; timeline := tl;
     deliverables := deliverables k; progress := progress k;
     points := points k |}.

Definition set_deliverables (ds : list Deliverable) (k : t) : t :=
  {| project := project k; assignedTo := assignedTo k;
     assignedBy := assignedBy k;
     status := status k; timeline := timeline k;
     deliverables := ds; progress := progress k;
     points := points k |}.

Definition set_progress (pr : Progress) (k : t) : t :=
  {| project := project k; assignedTo := assignedTo k;
     assignedBy := assignedBy k;
     status := status k; timeline := timeline k;
     deliverables := deliverables k; progress := pr;
     points := points k |}.

Definition set_points (pt : Points) (k : t) : t :=
  {| project := project k; assignedTo := assignedTo k;
     assignedBy := assignedBy k;
     status := status k; timeline := timeline k;
     deliverables := deliverables k; progress := progress k;
     points := pt |}.

Definition set_completedDate (d : option Date) (k : t) : t :=
  set_timeline
    {| startDate := startDate (timeline k); dueDate := dueDate (timeline k);
       completedDate := d; actualHours := actualHours (timeline k) |} k.

Definition set_actualHours (h : N) (k : t) : t :=
  set_timeline
    {| startDate := startDate (timeline k); dueDate := dueDate (timeline k);
       completedDate := completedDate (timeline k); actualHours := h |} k.

Definition set_percentage (p : JS.Number) (k : t) : t :=
  set_progress {| percentage := p; updates := updates (progress k) |} k.

(** [taskSchema.pre('save')]. *)
Definition pre_save (k : t) : t :=
  set_points {| base := base (points k); bonus := bonus (points k);
                total := base (points k) + bonus (points k) |} k.

Definition save (k : t) : t := pre_save k.

(** The document the call leaves when its save passes the validators of
    the schema: the message of an update is required, so it is not empty,
    and the schema reads [attachments] as a list of strings, so the
    default [[]] is the one list of attachment records a save accepts. *)
Definition updateProgress (now : Date) (percentage : Z) (message : string)
    (updatedBy : ObjectId) (attachments : list Attachment) (k : t) : t :=
  let k1 := set_percentage (JS.of_Z (Z.min 100 (Z.max 0 percentage))) k in
  let k2 :=
    set_progress
      {| Task.percentage := Task.percentage (progress k1);
         updates := (updates (progress k1)
                       ++ [ {| message := message; date := now;
                               updatedBy := updatedBy;
                               attachments := attachments |} ])%list |}
      k1 in
  let k3 :=
    if (percentage >=? 100) && negb (bool_decide (status k2 = completed))
    then set_completedDate (Some now) (set_status completed k2)
    else k2 in
  save k3.

Definition assignTo (userId : ObjectId) (k : t) : t :=
  save (set_status assigned (set_assignedTo (Some userId) k)).

(** [actualHours = null] is [None]. *)
Definition complete (now : Date) (actualHours : option N) (k : t) : t :=
  let k1 := set_status completed k in
  let k2 := set_completedDate (Some now) k1 in
  let k3 := set_percentage (JS.of_Z 100) k2 in
  let k4 :=
    match actualHours with
    | Some h => set_actualHours h k3
    | None => k3
    end in
  save k4.

(** [newId] is the [_id] mongoose generates for the pushed subdocument. *)
Definition addDeliverable (newId : ObjectId) (name description type : string)
    (k : t) : t :=
  save
    (set_deliverables
       (deliverables k
          ++ [ {| d_id := newId; d_name := name;
                  d_description := description; d_type := type;
                  d_status := d_pending; d_file := None |} ])%list
       k).

Definition completedCount (ds : list Deliverable) : Z :=
  Z.of_nat (length (filter (fun d => d_status d = d_completed) ds)).

(** [this.deliverables.id(deliverableId)] is the first subdocument with
    that [_id]; assignments to it write through to the array. The [file]
    argument carries [filename] and [path]. *)
Definition completeDeliverable (now : Date) (deliverableId : ObjectId)
    (file : option (string * string)) (k : t) : outcome * t :=
  match list_find (fun d => d_id d = deliverableId) (deliverables k) with
  | None => (Thrown "Deliverable not found", k)
  | Some (i, deliverable) =>
      let d1 :=
        {| d_id := d_id deliverable; d_name := d_name deliverable;
           d_description := d_description deliverable;
           d_type := d_type deliverable;
           d_status := d_completed; d_file := d_file deliverable |} in
      let d2 :=
        match file with
        | Some (fname, fpath) =>
            {| d_id := d_id d1; d_name := d_name d1;
               d_description := d_description d1; d_type := d_type d1;
               d_status := d_status d1;
               d_file := Some {| filename := fname; path := fpath;
                                 uploadDate := now |} |}
        | None => d1
        end in
      let k1 := set_deliverables (<[i := d2]> (deliverables k)) k in
      let k2 :=
        set_percentage
          (JS.round_percent (completedCount (deliverables k1))
             (Z.of_nat (length (deliverables k1))))
          k1 in
      (Returned, save k2)
  end.

(** The virtual [deliverableProgress]. *)
Definition deliverableProgress (k : t) : JS.Number :=
  if (length (deliverables k) =? 0)%nat then percentage (progress k)
  else JS.round_percent (completedCount (deliverables k))
         (Z.of_nat (length (deliverables k))).

End Task.

(** ** Project model (models/NGO.js) *)
Module Project.

Inductive Status :=
| draft | pending_approval | approved | active
| completed | cancelled | on_hold | rejected.

Inductive VolunteerStatus :=
| v_applied | v_accepted | v_rejected | v_completed | v_dropped.

#[global] Instance Status_eq_dec : EqDecision Status.
Proof. solve_decision. Defined.

#[global] Instance VolunteerStatus_eq_dec : EqDecision VolunteerStatus.
Proof. solve_decision. Defined.

Record Volunteer := {
  user : ObjectId;
  joinedDate : Date;
  v_status : VolunteerStatus;
  role : string;
  hoursContributed : Z
}.

Definition status_name (s : VolunteerStatus) : string :=
  match s with
  | v_applied => "applied"
  | v_accepted => "accepted"
  | v_rejected => "rejected"
  | v_completed => "completed"
  | v_dropped => "dropped"
  end.

(** [requirements.volunteers]. *)
Record Capacity := {
  total : Z;
  current : Z
}.

(** [modified_volunteers] is mongoose's change tracking for the path
    [volunteers], what [isModified('volunteers')] reads. *)
Record t := {
  createdBy : ObjectId;
  status : Status;
  requirements_volunteers : Capacity;
  volunteers : list Volunteer;
  modified_volunteers : bool
}.

Definition set_current (c : Z) (p : t) : t :=
  {| createdBy := createdBy p; status := status p;
     requirements_volunteers :=
       {| total := total (requirements_volunteers p); current := c |};
     volunteers := volunteers p;
     modified_volunteers := modified_volunteers p |}.

(** A write to the array or to one of its subdocuments. *)
Definition set_volunteers (vs : list Volunteer) (p : t) : t :=
  {| createdBy := createdBy p; status := status p;
     requirements_volunteers := requirements_volunteers p;
     volunteers := vs;
     modified_volunteers := true |}.

Definition set_status_of (s : VolunteerStatus) (v : Volunteer) : Volunteer :=
  {| user := user v; joinedDate := joinedDate v; v_status := s;
     role := role v; hoursContributed := hoursContributed v |}.

(** [this.volunteers.filter(v => v.status === 'accepted').length]. *)
Definition acceptedCount (vs : list Volunteer) : Z :=
  Z.of_nat (length (filter (fun v => v_status v = v_accepted) vs)).

(** [projectSchema.pre('save')]. *)
Definition pre_save (p : t) : t :=
  if modified_volunteers p
  then set_current (acceptedCount (volunteers p)) p
  else p.

(** A successful save leaves no path modified. *)
Definition save (p : t) : t :=
  let p1 := pre_save p in
  {| createdBy := createdBy p1; status := status p1;
     requirements_volunteers := requirements_volunteers p1;
     volunteers := volunteers p1;
     modified_volunteers := false |}.

(** The pushed subdocument takes the schema defaults for the fields the
    caller leaves out. *)
Definition new_volunteer (now : Date) (userId : ObjectId) (role : string)
    : Volunteer :=
  {| user := userId; joinedDate := now; v_status := v_applied;
     role := role; hoursContributed := 0 |}.

Definition addVolunteer (now : Date) (userId : ObjectId)
    (role : option string) (p : t) : outcome * t :=
  let role := default "volunteer" role in
  match list_find (fun v => user v = userId) (volunteers p) with
  | Some _ => (Thrown "User has already applied for this project", p)
  | None =>
      if current (requirements_volunteers p)
           >=? total (requirements_volunteers p)
      then (Thrown "Project is full", p)
      else
        (Returned,
         save (set_volunteers
                 (volunteers p ++ [new_volunteer now userId role])%list
                 p))
  end.

(** Assigning a value equal to the stored one does not mark the path. *)
Definition assign_status (i : nat) (v : Volunteer) (s : VolunteerStatus)
    (p : t) : t :=
  if bool_decide (v_status v = s) then p
  else set_volunteers (<[i := set_status_of s v]> (volunteers p)) p.

Definition updateVolunteerStatus (userId : ObjectId)
    (status : VolunteerStatus) (p : t) : outcome * t :=
  match list_find (fun v => user v = userId) (volunteers p) with
  | None => (Thrown "Volunteer not found in this project", p)
  | Some (i, volunteer) =>
      let p1 := assign_status i volunteer status p in
      let p2 := set_current (acceptedCount (volunteers p1)) p1 in
      (Returned, save p2)
  end.

End Project.

(** ** Request handlers (routes/projects.js, routes/tasks.js) *)
Module Routes.

Inductive Role := role_volunteer | role_ngo | role_admin.

#[global] Instance Role_eq_dec : EqDecision Role.
Proof. solve_decision. Defined.

(** [req.user], as the token middleware attaches it. *)
Record Actor := {
  id : ObjectId;
  role : Role
}.

Record DB := {
  users : gmap N User.t;
  tasks : gmap N Task.t;
  projects : gmap N Project.t
}.

Definition set_users (us : gmap N User.t) (db : DB) : DB :=
  {| users := us; tasks := tasks db; projects := projects db |}.

Definition set_tasks (ts : gmap N Task.t) (db : DB) : DB :=
  {| users := users db; tasks := ts; projects := projects db |}.

Definition set_projects (ps : gmap N Project.t) (db : DB) : DB :=
  {| users := users db; tasks := tasks db; projects := ps |}.

(** [res.status(code).json({ success, message })]. *)
Record Response := {
  code : nat;
  success : bool;
  message : string
}.

Definition json (c : nat) (ok : bool) (msg : string) : Response :=
  {| code := c; success := ok; message := msg |}.

(** POST /api/projects/:id/apply *)
Definition applyToProject (now : Date) (actor : Actor) (projectId : ObjectId)
    (db : DB) : Response * DB :=
  match projects db !! projectId with
  | None => (json 404 false "Project not found", db)
  | Some project =>
      if negb (bool_decide (Project.status project = Project.active))
      then (json 400 false "Project is not accepting applications", db)
      else
        match list_find (fun v => Project.user v = id actor)
                (Project.volunteers project) with
        | Some _ =>
            (json 400 false "You have already applied for this project", db)
        | None =>
            if Project.current (Project.requirements_volunteers project)
                 >=? Project.total (Project.requirements_volunteers project)
            then (json 400 false "Project is full", db)
            else
              let project1 :=
                Project.set_volunteers
                  (Project.volunteers project
                     ++ [Project.new_volunteer now (id actor) "volunteer"])%list
                  project in
              (json 200 true "Application submitted successfully",
               set_projects
                 (<[projectId := Project.save project1]> (projects db)) db)
        end
  end.

(** PUT /api/projects/:id/volunteers/:volunteerId *)
Definition updateVolunteer (now : Date) (actor : Actor)
    (projectId volunteerId : ObjectId) (status : Project.VolunteerStatus)
    (db : DB) : Response * DB :=
  match projects db !! projectId with
  | None => (json 404 false "Project not found", db)
  | Some project =>
      if negb (bool_decide (role actor = role_admin))
         && negb (bool_decide (Project.createdBy project = id actor))
      then (json 403 false "Not authorized to update volunteer status", db)
      else
        match list_find (fun v => Project.user v = volunteerId)
                (Project.volunteers project) with
        | None => (json 404 false "Volunteer not found in this project", db)
        | Some (i, volunteer) =>
            let project1 := Project.assign_status i volunteer status project in
            let project2 :=
              Project.set_current
                (Project.acceptedCount (Project.volunteers project1))
                project1 in
            let db1 :=
              set_projects
                (<[projectId := Project.save project2]> (projects db)) db in
            let db2 :=
              if bool_decide (status = Project.v_accepted) then
                match users db1 !! volunteerId with
                | Some user =>
                    set_users
                      (<[volunteerId :=
                           User.addPoints now 50
                             "Project application accepted"
                             (Some projectId) user]> (users db1))
                      db1
                | None => db1
                end
              else db1 in
            (json 200 true
               ("Volunteer status updated to " ++ Project.status_name status),
             db2)
        end
  end.


(** PUT /api/tasks/:id, for a body that holds the key [status] alone: the
    handler copies each key of [req.body] onto the document
    ([task[key] = updates[key]]) and saves it. *)
Definition updateTask_status (actor : Actor) (taskId : ObjectId)
    (status : Task.Status) (db : DB) : Response * DB :=
  match tasks db !! taskId with
  | None => (json 404 false "Task not found", db)
  | Some task =>
      let canUpdate :=
        bool_decide (role actor = role_admin)
        || bool_decide (Task.assignedBy task = id actor) in
      if negb canUpdate
      then (json 403 false "Not authorized to update this task", db)
      else
        (json 200 true "Task updated successfully",
         set_tasks
           (<[taskId := Task.save (Task.set_status status task)]> (tasks db))
           db)
  end.

(** [User.countDocuments(filter)]. *)
Definition countDocuments (q : User.t -> Prop) `{!∀ u, Decision (q u)}
    (c : gmap N User.t) : Z :=
  Z.of_nat (size (filter (fun kv => q kv.2) c)).

Record RankData := {
  rank : Z;
  total : Z;
  percentile : JS.Number
}.

(** The two counts the handler runs for one metric. *)
Definition rankAndTotal (metric : User.t -> Z) (user : User.t)
    (c : gmap N User.t) : Z * Z :=
  let higherUsers :=
    countDocuments
      (fun u => metric u > metric user ∧ User.isActive u = true) c in
  (higherUsers + 1,
   countDocuments (fun u => User.isActive u = true ∧ metric u > 0) c).

(** GET /api/leaderboard/user/:id/rank; [type] is [req.query.type]. *)
Definition userRank (userId : ObjectId) (type : option string) (db : DB)
    : Response * option RankData :=
  let type := default "points" type in
  match users db !! userId with
  | None => (json 404 false "User not found", None)
  | Some user =>
      let '(rank, total) :=
        if String.eqb type "points" then
          rankAndTotal (fun u => User.total (User.points u)) user (users db)
        else if String.eqb type "projects" then
          rankAndTotal
            (fun u => User.projectsCompleted (User.statistics u))
            user (users db)
        else if String.eqb type "hours" then
          rankAndTotal
            (fun u => User.hoursVolunteered (User.statistics u))
            user (users db)
        else (0, 0) in
      let percentile :=
        if total >? 0 then JS.round_percent (total - rank + 1) total
        else JS.of_Z 0 in
      (json 200 true "",
       Some {| rank := rank; total := total; percentile := percentile |})
  end.

End Routes.

(** ** Vocabulary of the properties *)

(** One call [user.addPoints(amount, reason, projectRef)] and the clock
    reading it sees. *)
Record AddPointsCall := {
  call_now : Date;
  call_amount : Z;
  call_reason : string;
  call_project : option ObjectId
}.

Definition addPoints_call (u : User.t) (c : AddPointsCall) : User.t :=
  User.addPoints (call_now c) (call_amount c) (call_reason c)
    (call_project c) u.

Definition addPoints_calls (cs : list AddPointsCall) (u : User.t) : User.t :=
  fold_left addPoints_call cs u.

(** The log entry a call appends. *)
Definition entry_of (c : AddPointsCall) : User.PointsEntry :=
  {| User.amount := call_amount c; User.reason := call_reason c;
     User.date := call_now c; User.project := call_project c |}.

Definition sumZ (l : list Z) : Z := foldr Z.add 0 l.

(** [points.total] is the sum of [points.earned[*].amount]. *)
Definition ledger_ok (u : User.t) : Prop :=
  User.total (User.points u)
  = sumZ (User.amount <$> User.earned (User.points u)).

(** The badge table as the specification prints it. *)
Definition qualifies (T : Z) (n : string) : Prop :=
  (n = "First Steps" ∧ 100 ≤ T)
  ∨ (n = "Bronze Contributor" ∧ 500 ≤ T)
  ∨ (n = "Silver Contributor" ∧ 1000 ≤ T)
  ∨ (n = "Gold Contributor" ∧ 2000 ≤ T)
  ∨ (n = "Platinum Contributor" ∧ 5000 ≤ T).

(** What one run of the evaluator appends to [this.badges]. *)
Definition awarded (now : Date) (u : User.t) : list User.Badge :=
  User.new_badge now
    <$> filter
          (fun b => User.total (User.points u) >= User.th_points b
                    ∧ User.th_name b ∉ (User.name <$> User.badges u))
          User.badgeThresholds.

Definition roster_ok (p : Project.t) : Prop :=
  Project.current (Project.requirements_volunteers p)
  = Z.of_nat
      (length (filter (fun v => Project.v_status v = Project.v_accepted)
                 (Project.volunteers p))).

(** The roster entry an application appends. *)
Definition application (now : Date) (userId : ObjectId) (role : string)
    : Project.Volunteer :=
  {| Project.user := userId; Project.joinedDate := now;
     Project.v_status := Project.v_applied; Project.role := role;
     Project.hoursContributed := 0 |}.

Definition ex_project : Project.t :=
  {| Project.createdBy := 9%N; Project.status := Project.active;
     Project.requirements_volunteers :=
       {| Project.total := 2; Project.current := 0 |};
     Project.volunteers :=
       [ application 5 1%N "volunteer";
         Project.set_status_of Project.v_rejected
           (application 6 2%N "volunteer") ];
     Project.modified_volunteers := false |}.

Definition ex_full : Project.t := Project.set_current 2 ex_project.

Definition clamp (percentage : Z) : Z := Z.min 100 (Z.max 0 percentage).

(** A task as the schema defaults create it. *)
Definition ex_task : Task.t :=
  {| Task.project := 1%N; Task.assignedTo := None; Task.assignedBy := 9%N;
     Task.status := Task.pending;
     Task.timeline :=
       {| Task.startDate := 0; Task.dueDate := 1000;
          Task.completedDate := None; Task.actualHours := 0%N |};
     Task.deliverables := [];
     Task.progress := {| Task.percentage := JS.of_Z 0; Task.updates := [] |};
     Task.points := {| Task.base := 100; Task.bonus := 0; Task.total := 100 |} |}.

(** The default task with status 'completed' and no [completedDate]. *)
Definition ex_task_undated : Task.t := Task.set_status Task.completed ex_task.

(** A database holding the default task. *)
Definition ex_db_pending : Routes.DB :=
  {| Routes.users := ∅;
     Routes.tasks := {[ 1%N := ex_task ]};
     Routes.projects := ∅ |}.

(** The integer nearest to [a / b] for [b > 0], ties upwards: what
    [round(a / b)] denotes over the rationals. *)
Definition round_half_up (a b : Z) : Z := (2 * a + b) `div` (2 * b).

Definition ex_deliverables (n : nat) (k : Task.t) : Task.t :=
  fold_left
    (fun k i => Task.addDeliverable (N.of_nat i) "report" "" "report" k)
    (seq 1 n) k.

Definition ex_complete (n : nat) (k : Task.t) : Task.t :=
  fold_left
    (fun k i => (Task.completeDeliverable 0 (N.of_nat i) None k).2)
    (seq 1 n) k.

(** Three deliverables, none completed. *)
Definition ex_task_3 : Task.t := ex_deliverables 3 ex_task.

(** Forty deliverables, the first 22 completed. *)
Definition ex_task_40 : Task.t := ex_complete 22 (ex_deliverables 40 ex_task).





Definition ex_admin : Routes.Actor :=
  {| Routes.id := 9%N; Routes.role := Routes.role_admin |}.



(** The metric a [type] of the rank query selects. *)
Definition metric_of (type : string) : option (User.t → Z) :=
  if String.eqb type "points" then Some (fun u => User.total (User.points u))
  else if String.eqb type "projects"
       then Some (fun u => User.projectsCompleted (User.statistics u))
  else if String.eqb type "hours"
       then Some (fun u => User.hoursVolunteered (User.statistics u))
  else None.

(** The number of active users whose metric is strictly above [x]. *)
Definition active_above (m : User.t → Z) (x : Z) (c : gmap N User.t) : Z :=
  Z.of_nat
    (size (filter (fun kv => User.isActive kv.2 = true ∧ m kv.2 > x) c)).

(** Users [1..n], user [i] having earned [step * i] points in one call. *)
Definition ex_users (n : nat) (step : Z) : gmap N User.t :=
  list_to_map
    ((fun i => (N.of_nat i,
                User.addPoints 0 (step * Z.of_nat i) "Task completed" None
                  User.fresh))
       <$> seq 1 n).

(** Four active users with 500, 300, 300 and 100 points. *)
Definition ex_board : Routes.DB :=
  {| Routes.users :=
       list_to_map
         ((fun '(i, pts) =>
             (i, User.addPoints 0 pts "Task completed" None User.fresh))
            <$> [(1%N, 500); (2%N, 300); (3%N, 300); (4%N, 100)]);
     Routes.tasks := ∅; Routes.projects := ∅ |}.

(** Forty active users with 100, 200, ..., 4000 points. *)
Definition ex_board_40 : Routes.DB :=
  {| Routes.users := ex_users 40 100;
     Routes.tasks := ∅; Routes.projects := ∅ |}.

(** * Further models *)
(** ** Vocabulary of the further properties *)

(** [0] or [1], as a condition holds. *)
Definition indicator (P : Prop) `{!Decision P} : nat := if decide P then 1%nat else 0%nat.

(** Applications by the users of [us], one after the other, as long as
    they return. *)
Fixpoint addVolunteers (now : Date) (us : list ObjectId) (p : Project.t)
    : outcome * Project.t :=
  match us with
  | [] => (Returned, p)
  | u :: us =>
      match Project.addVolunteer now u None p with
      | (Returned, p') => addVolunteers now us p'
      | r => r
      end
  end.

(** Capacity 1, one accepted volunteer and one applicant. *)
Definition ex_small : Project.t :=
  {| Project.createdBy := 9%N; Project.status := Project.active;
     Project.requirements_volunteers :=
       {| Project.total := 1; Project.current := 1 |};
     Project.volunteers :=
       [ Project.set_status_of Project.v_accepted
           (application 5 1%N "volunteer");
         application 6 2%N "volunteer" ];
     Project.modified_volunteers := false |}.

(** The calls a task document receives. *)
Inductive TaskOp :=
| OpAssignTo (userId : ObjectId)
| OpUpdateProgress (now : Date) (percentage : Z) (message : string)
    (updatedBy : ObjectId) (attachments : list Task.Attachment)
| OpComplete (now : Date) (actualHours : option N)
| OpAddDeliverable (newId : ObjectId) (name description type : string)
| OpCompleteDeliverable (now : Date) (deliverableId : ObjectId)
    (file : option (string * string)).

Definition run_op (op : TaskOp) (k : Task.t) : outcome * Task.t :=
  match op with
  | OpAssignTo u => (Returned, Task.assignTo u k)
  | OpUpdateProgress now p m by_ atts =>
      (Returned, Task.updateProgress now p m by_ atts k)
  | OpComplete now h => (Returned, Task.complete now h k)
  | OpAddDeliverable i n d t => (Returned, Task.addDeliverable i n d t k)
  | OpCompleteDeliverable now i f => Task.completeDeliverable now i f k
  end.

(** A sequence of calls, each on the document the one before left. *)
Definition run_ops (ops : list TaskOp) (k : Task.t) : Task.t :=
  fold_left (fun k op => (run_op op k).2) ops k.

(** The deliverable [completeDeliverable] writes back. *)
Definition completed_deliverable (now : Date) (file : option (string * string))
    (d : Task.Deliverable) : Task.Deliverable :=
  {| Task.d_id := Task.d_id d; Task.d_name := Task.d_name d;
     Task.d_description := Task.d_description d; Task.d_type := Task.d_type d;
     Task.d_status := Task.d_completed;
     Task.d_file :=
       match file with
       | Some (fname, fpath) =>
           Some {| Task.filename := fname; Task.path := fpath;
                   Task.uploadDate := now |}
       | None => Task.d_file d
       end |}.

(** What no call on a task undoes: the update log and the deliverables
    only grow, a deliverable keeps its place and its id and stays
    completed once it is, [completedDate] and [assignedTo] stay set once
    they are, and the base and bonus points, the project and the creator
    are not touched. *)
Definition task_extends (k k' : Task.t) : Prop :=
  (∃ more, Task.updates (Task.progress k')
           = Task.updates (Task.progress k) ++ more)
  ∧ (∀ i d, Task.deliverables k !! i = Some d →
       ∃ d', Task.deliverables k' !! i = Some d'
             ∧ Task.d_id d' = Task.d_id d
             ∧ (Task.d_status d = Task.d_completed →
                Task.d_status d' = Task.d_completed))
  ∧ (is_Some (Task.completedDate (Task.timeline k)) →
     is_Some (Task.completedDate (Task.timeline k')))
  ∧ (is_Some (Task.assignedTo k) → is_Some (Task.assignedTo k'))
  ∧ Task.base (Task.points k') = Task.base (Task.points k)
  ∧ Task.bonus (Task.points k') = Task.bonus (Task.points k)
  ∧ Task.project k' = Task.project k
  ∧ Task.assignedBy k' = Task.assignedBy k.

Definition is_updateProgress (op : TaskOp) : bool :=
  match op with
  | OpUpdateProgress _ _ _ _ _ => true
  | _ => false
  end.

(** The number of [updateProgress] calls among [ops]. *)
Definition progress_calls (ops : list TaskOp) : nat :=
  length (filter (fun op => is_updateProgress op = true) ops).




(** The values the task schema lists for the [type] of a deliverable. *)
Definition deliverable_types : list string :=
  [ "document"; "report"; "presentation"; "media"; "data"; "other" ]%string.

(** ** NGO model (models/NGO.js) *)
Module NGO.

Inductive VerificationStatus := pending | under_review | verified | rejected.

#[global] Instance VerificationStatus_eq_dec : EqDecision VerificationStatus.
Proof. solve_decision. Defined.

Record Verification := {
  status : VerificationStatus;
  verifiedBy : option ObjectId;
  verifiedDate : option Date;
  rejectionReason : option string
}.

Record Review := {
  r_user : ObjectId;
  r_rating : Z;
  r_comment : option string;
  r_date : Date
}.

Record Rating := {
  average : JS.Number;
  count : Z;
  reviews : list Review
}.

Record Follower := {
  f_user : ObjectId;
  followDate : Date
}.

Record t := {
  verification : Verification;
  rating : Rating;
  followers : list Follower;
  isActive : bool
}.

Definition set_verification (v : Verification) (n : t) : t :=
  {| verification := v; rating := rating n; followers := followers n;
     isActive := isActive n |}.


Definition set_followers (fs : list Follower) (n : t) : t :=
  {| verification := verification n; rating := rating n; followers := fs;
     isActive := isActive n |}.

(** The virtual [followerCount]. *)
Definition followerCount (n : t) : Z := Z.of_nat (length (followers n)).



End NGO.

(** ** express-validator chains

    On the strings of the ASCII range ([JS.is_ascii]), where [\s] is the
    set below and the length validator.js takes is the number of bytes. *)
Module Validator.

(** The characters [\s] matches in the ASCII range. *)
Definition is_space (c : ascii) : bool :=
  let n := nat_of_ascii c in
  ((9 <=? n) && (n <=? 13) || (n =? 32))%nat.

Fixpoint ltrim (s : string) : string :=
  match s with
  | EmptyString => EmptyString
  | String c r => if is_space c then ltrim r else s
  end.

Fixpoint rtrim (s : string) : string :=
  match s with
  | EmptyString => EmptyString
  | String c r =>
      match rtrim r with
      | EmptyString => if is_space c then EmptyString else String c EmptyString
      | r' => String c r'
      end
  end.

(** [.trim()] *)
Definition trim (s : string) : string := rtrim (ltrim s).

(** [.isLength({ min, max })] *)
Definition isLength (min max : nat) (s : string) : bool :=
  ((min <=? String.length s) && (String.length s <=? max))%nat.

(** [.isInt({ min, max })] on a value that is an integer. *)
Definition isInt (min max : Z) (z : Z) : bool :=
  (min <=? z) && (z <=? max).

End Validator.

(** ** NGO handlers *)
Module NgoRoutes.

(** The answer of the follow handler: [data.following] and
    [data.followerCount] when it succeeds. *)
Record FollowReply := {
  reply : Routes.Response;
  following : option bool;
  followerCount : option Z
}.

(** POST /api/ngos/:id/follow *)
Definition follow (now : Date) (actor : Routes.Actor) (ngoId : ObjectId)
    (ngos : gmap N NGO.t) : FollowReply * gmap N NGO.t :=
  match ngos !! ngoId with
  | None =>
      ({| reply := Routes.json 404 false "NGO not found";
          following := None; followerCount := None |}, ngos)
  | Some ngo =>
      if negb (bool_decide
                 (NGO.status (NGO.verification ngo) = NGO.verified))
      then ({| reply := Routes.json 400 false "Cannot follow unverified NGO";
               following := None; followerCount := None |}, ngos)
      else
        match list_find (fun f => NGO.f_user f = Routes.id actor)
                (NGO.followers ngo) with
        | Some _ =>
            let ngo1 :=
              NGO.set_followers
                (filter (fun f => NGO.f_user f ≠ Routes.id actor)
                   (NGO.followers ngo))
                ngo in
            ({| reply := Routes.json 200 true "Unfollowed NGO successfully";
                following := Some false;
                followerCount := Some (Z.of_nat (length (NGO.followers ngo1))) |},
             <[ngoId := ngo1]> ngos)
        | None =>
            let ngo1 :=
              NGO.set_followers
                (NGO.followers ngo
                   ++ [ {| NGO.f_user := Routes.id actor;
                           NGO.followDate := now |} ])%list
                ngo in
            ({| reply := Routes.json 200 true "Following NGO successfully";
                following := Some true;
                followerCount := Some (Z.of_nat (length (NGO.followers ngo1))) |},
             <[ngoId := ngo1]> ngos)
        end
  end.

End NgoRoutes.

(** [user.isActive = isActive]. *)
Definition with_isActive (isActive : bool) (user : User.t) : User.t :=
  {| User.points := User.points user; User.badges := User.badges user;
     User.statistics := User.statistics user; User.isActive := isActive |}.

(** ** Admin handlers (behind [requireAdmin]) *)
Module Admin.

(** [requireAdmin]. *)
Definition requireAdmin (actor : Routes.Actor) : option Routes.Response :=
  if negb (bool_decide (Routes.role actor = Routes.role_admin))
  then Some (Routes.json 403 false "Access denied. Admin role required.")
  else None.

(** PUT /api/admin/ngos/:id/verify; [status] is 'verified' ([true]) or
    'rejected' ([false]), as its validator admits, and [rejectionReason]
    is absent ([None]) or a string. The chain of the reason trims it and
    asks for at most 1000 characters; the handler answers 400 when the
    chain fails, and stores the trimmed reason when the status is
    'rejected' and that reason is not empty. *)
Definition verifyNGO (now : Date) (actor : Routes.Actor) (ngoId : ObjectId)
    (verified : bool) (rejectionReason : option string)
    (ngos : gmap N NGO.t) : Routes.Response * gmap N NGO.t :=
  match requireAdmin actor with
  | Some refusal => (refusal, ngos)
  | None =>
      let rejectionReason := Validator.trim <$> rejectionReason in
      if negb (from_option (Validator.isLength 0 1000) true rejectionReason)
      then (Routes.json 400 false "Validation errors", ngos)
      else
        match ngos !! ngoId with
        | None => (Routes.json 404 false "NGO not found", ngos)
        | Some ngo =>
            let v := NGO.verification ngo in
            let reason :=
              match verified, rejectionReason with
              | false, Some r =>
                  if bool_decide (r = ""%string) then NGO.rejectionReason v
                  else Some r
              | _, _ => NGO.rejectionReason v
              end in
            let v1 :=
              {| NGO.status := if verified then NGO.verified else NGO.rejected;
                 NGO.verifiedBy := Some (Routes.id actor);
                 NGO.verifiedDate := Some now;
                 NGO.rejectionReason := reason |} in
            (Routes.json 200 true
               (if verified then "NGO verified successfully"
                else "NGO rejected successfully"),
             <[ngoId := NGO.set_verification v1 ngo]> ngos)
        end
  end.

(** PUT /api/admin/users/:id/status, for a body whose [isActive] is a
    JSON boolean. *)
Definition setUserStatus (actor : Routes.Actor) (userId : ObjectId)
    (isActive : bool) (db : Routes.DB) : Routes.Response * Routes.DB :=
  match requireAdmin actor with
  | Some refusal => (refusal, db)
  | None =>
      match Routes.users db !! userId with
      | None => (Routes.json 404 false "User not found", db)
      | Some user =>
          let user1 := with_isActive isActive user in
          (Routes.json 200 true
             (if isActive then "User activated successfully"
              else "User deactivated successfully"),
           Routes.set_users (<[userId := user1]> (Routes.users db)) db)
      end
  end.

(** The values the project schema lists for [status]; a save with another
    value in a modified [status] fails validation. *)
Definition project_status_enum : list Project.Status :=
  [ Project.draft; Project.pending_approval; Project.approved; Project.active;
    Project.completed; Project.cancelled; Project.on_hold ].

(** PUT /api/admin/projects/:id/approve; [status] is 'approved' ([true])
    or 'rejected' ([false]). The handler writes
    [status === 'approved' ? 'active' : 'rejected'] and saves; a save that
    fails validation throws, and the handler's [catch] answers 500. The
    fields [approvedBy], [approvedDate] and [rejectionReason] it also
    writes lie outside the part of the document [Project.t] holds. *)
Definition approveProject (actor : Routes.Actor) (projectId : ObjectId)
    (approved : bool) (db : Routes.DB) : Routes.Response * Routes.DB :=
  match requireAdmin actor with
  | Some refusal => (refusal, db)
  | None =>
      match Routes.projects db !! projectId with
      | None => (Routes.json 404 false "Project not found", db)
      | Some project =>
          let status := if approved then Project.active else Project.rejected in
          let project1 :=
            {| Project.createdBy := Project.createdBy project;
               Project.status := status;
               Project.requirements_volunteers :=
                 Project.requirements_volunteers project;
               Project.volunteers := Project.volunteers project;
               Project.modified_volunteers :=
                 Project.modified_volunteers project |} in
          if bool_decide (status ∈ project_status_enum)
          then
            (Routes.json 200 true
               (if approved then "Project approved successfully"
                else "Project rejected successfully"),
             Routes.set_projects
               (<[projectId := Project.save project1]> (Routes.projects db)) db)
          else (Routes.json 500 false "Server error", db)
      end
  end.

End Admin.

(** A verified NGO with two followers. *)
Definition ex_ngo : NGO.t :=
  {| NGO.verification :=
       {| NGO.status := NGO.verified; NGO.verifiedBy := Some 9%N;
          NGO.verifiedDate := Some 3; NGO.rejectionReason := None |};
     NGO.rating := {| NGO.average := JS.of_Z 0; NGO.count := 0;
                      NGO.reviews := [] |};
     NGO.followers :=
       [ {| NGO.f_user := 1%N; NGO.followDate := 4 |};
         {| NGO.f_user := 2%N; NGO.followDate := 5 |} ];
     NGO.isActive := true |}.

Definition ex_volunteer (i : ObjectId) : Routes.Actor :=
  {| Routes.id := i; Routes.role := Routes.role_volunteer |}.

(** ** User handlers (routes/users.js) *)
Module UserRoutes.






End UserRoutes.

(** ** Project funding (models/NGO.js) *)
Module Funding.

Record Donor := {
  donor_name : string;
  donor_email : string;
  anonymous : bool
}.

Record Donation := {
  donor : Donor;
  amount : Z;
  date : Date;
  paymentId : string
}.

(** [funding]. *)
Record t := {
  required : Z;
  raised : Z;
  donations : list Donation
}.

(** A project document: the part [Project.t] holds and its [funding]. *)
Record Doc := {
  core : Project.t;
  funding : t
}.

(** [projectSchema.methods.addDonation]; the save runs the [pre('save')]
    hook of the project. [this.funding.raised += amount] is an addition
    of Numbers: the sum in [Z] is what the engine computes as long as
    raised, amount and sum lie within [-2^53, 2^53]. *)
Definition addDonation (now : Date) (donorInfo : Donor) (amount : Z)
    (paymentId : string) (p : Doc) : Doc :=
  let f := funding p in
  let f1 :=
    {| required := required f; raised := raised f;
       donations :=
         (donations f
            ++ [ {| donor := donorInfo; amount := amount; date := now;
                    paymentId := paymentId |} ])%list |} in
  let f2 :=
    {| required := required f1; raised := raised f1 + amount;
       donations := donations f1 |} in
  {| core := Project.save (core p); funding := f2 |}.

(** The virtual [fundingPercentage]. *)
Definition fundingPercentage (p : Doc) : JS.Number :=
  if required (funding p) =? 0 then JS.of_Z 0
  else JS.round_percent (raised (funding p)) (required (funding p)).

End Funding.

(** ** Task handlers (routes/tasks.js) *)
Module TaskRoutes.

(** PUT /api/tasks/:id/progress, for a body whose [percentage] is an
    integer and whose [message] is a string of the ASCII range; the [trim]
    sanitizer replaces [message] in the body. *)
Definition updateTaskProgress (now : Date) (actor : Routes.Actor)
    (taskId : ObjectId) (percentage : Z) (message : string) (db : Routes.DB)
    : Routes.Response * Routes.DB :=
  let message := Validator.trim message in
  if negb (Validator.isInt 0 100 percentage
           && Validator.isLength 5 500 message)
  then (Routes.json 400 false "Validation errors", db)
  else
    match Routes.tasks db !! taskId with
    | None => (Routes.json 404 false "Task not found", db)
    | Some task =>
        let canUpdate :=
          bool_decide (Routes.role actor = Routes.role_admin)
          || bool_decide (Task.assignedTo task = Some (Routes.id actor))
          || bool_decide (Task.assignedBy task = Routes.id actor) in
        if negb canUpdate
        then (Routes.json 403 false
                "Not authorized to update this task progress", db)
        else
          let task1 :=
            Task.updateProgress now percentage message (Routes.id actor) []
              task in
          let db1 :=
            Routes.set_tasks (<[taskId := task1]> (Routes.tasks db)) db in
          let db2 :=
            if percentage >=? 100
            then
              match Task.assignedTo task1 with
              | Some assignee =>
                  match Routes.users db1 !! assignee with
                  | Some volunteer =>
                      let volunteer1 :=
                        User.addPoints now (Task.total (Task.points task1))
                          "Task completed" (Some (Task.project task1))
                          volunteer in
                      let st := User.statistics volunteer1 in
                      let volunteer2 :=
                        User.set_statistics
                          {| User.projectsCompleted := User.projectsCompleted st;
                             User.tasksCompleted := User.tasksCompleted st + 1;
                             User.hoursVolunteered := User.hoursVolunteered st;
                             User.impactScore := User.impactScore st |}
                          volunteer1 in
                      Routes.set_users
                        (<[assignee := volunteer2]> (Routes.users db1)) db1
                  | None => db1
                  end
              | None => db1
              end
            else db1 in
          (Routes.json 200 true "Progress updated successfully", db2)
    end.

End TaskRoutes.

(** The sum of the amounts of a list of donations. *)
Definition donated (l : list Funding.Donation) : Z :=
  sumZ (Funding.amount <$> l).

(** One call of [addDonation]. *)
Record DonationCall := {
  dc_now : Date;
  dc_donor : Funding.Donor;
  dc_amount : Z;
  dc_paymentId : string
}.

Definition addDonation_call (p : Funding.Doc) (c : DonationCall) : Funding.Doc :=
  Funding.addDonation (dc_now c) (dc_donor c) (dc_amount c) (dc_paymentId c) p.

Definition donation_of (c : DonationCall) : Funding.Donation :=
  {| Funding.donor := dc_donor c; Funding.amount := dc_amount c;
     Funding.date := dc_now c; Funding.paymentId := dc_paymentId c |}.

Definition ex_donor : Funding.Donor :=
  {| Funding.donor_name := "Asha"; Funding.donor_email := "asha@example.org";
     Funding.anonymous := false |}.

(** A project that asks for no money and has raised none. *)
Definition ex_unfunded : Funding.Doc :=
  {| Funding.core := ex_project;
     Funding.funding :=
       {| Funding.required := 0; Funding.raised := 0;
          Funding.donations := [] |} |}.






(** ** Vocabulary of the bounds *)

(** [x += a] for each [a] of [amounts] in turn, from the Number of
    [start], as the engine evaluates it. *)
Definition running64 (start : Z) (amounts : list Z) : JS.Number :=
  fold_left (fun x a => JS.add x (JS.of_Z a)) amounts (JS.of_Z start).

(** Every amount and every running sum from [start] is within
    [-2^53, 2^53]. *)
Fixpoint sums_safe (start : Z) (amounts : list Z) : Prop :=
  match amounts with
  | [] => True
  | a :: amounts =>
      JS.safe a ∧ JS.safe (start + a) ∧ sums_safe (start + a) amounts
  end.

(** Two credits, of 2^53 points and of one point. *)
Definition ex_calls_2_53 : list AddPointsCall :=
  [ {| call_now := 10; call_amount := 2 ^ 53;
       call_reason := "Task completed"; call_project := None |};
    {| call_now := 20; call_amount := 1;
       call_reason := "Task completed"; call_project := None |} ].


(** The calls whose save the task schema accepts: an update has a
    message and no attachments, a deliverable a name and a listed type. *)
Definition op_admitted (op : TaskOp) : Prop :=
  match op with
  | OpUpdateProgress _ _ message _ attachments =>
      message ≠ ""%string ∧ attachments = []
  | OpAddDeliverable _ name _ type =>
      name ≠ ""%string ∧ type ∈ deliverable_types
  | _ => True
  end.

(** A [rejectionReason] that passes its chain: absent, or an ASCII string
    of at most 1000 characters once trimmed. *)
Definition reason_admitted (rejectionReason : option string) : Prop :=
  match rejectionReason with
  | Some r =>
      JS.is_ascii r = true ∧ (String.length (Validator.trim r) <= 1000)%nat
  | None => True
  end.

(** The calls of the task document in one afternoon. *)
Definition ex_ops : list TaskOp :=
  [ OpAssignTo 2%N;
    OpUpdateProgress 5 40 "halfway" 2%N [];
    OpAddDeliverable 4%N "summary" "" "report";
    OpCompleteDeliverable 6 4%N None;
    OpComplete 7 (Some 3%N) ].

(** * Properties *)

(** ** Binary64 addition of integers *)

Section IterPos.
Context {A : Type} (f : A → A).

Lemma iter_pos_iter n : ∀ x, SpecFloat.iter_pos f n x = Pos.iter f x n.
Proof.
  induction n as [n IH|n IH|]; intros x; cbn [SpecFloat.iter_pos Pos.iter].
  - by rewrite !IH, !Pos.iter_swap.
  - by rewrite !IH.
  - reflexivity.
Qed.

Lemma iter_pos_succ n x :
  SpecFloat.iter_pos f (Pos.succ n) x = SpecFloat.iter_pos f n (f x).
Proof. by rewrite !iter_pos_iter, Pos.iter_succ, Pos.iter_swap. Qed.

End IterPos.

Lemma digits2_pos_xO q : Z.pos (digits2_pos (xO q)) = Z.pos (digits2_pos q) + 1.
Proof.
  change (digits2_pos (xO q)) with (Pos.succ (digits2_pos q)). lia.
Qed.

(** Doubling the mantissa against one step of the exponent does not
    change what [binary_round] rounds to: both sides are aligned to the
    same exponent, and the bit shifted out on the left is a zero. *)
Lemma binary_round_xO s q e :
  binary_round JS.prec JS.emax s (xO q) (e - 1)
  = binary_round JS.prec JS.emax s q e.
Proof.
  assert (Ht : fexp JS.prec JS.emax (Z.pos (digits2_pos (xO q)) + (e - 1))
               = fexp JS.prec JS.emax (Z.pos (digits2_pos q) + e))
    by (rewrite digits2_pos_xO; f_equal; lia).
  unfold binary_round. rewrite Ht.
  set (t := fexp JS.prec JS.emax (Z.pos (digits2_pos q) + e)) in *.
  unfold shl_align.
  destruct (t - e) as [|n|n] eqn:E.
  - (* no shift on the right, one step of [shr] on the left *)
    replace (t - (e - 1)) with 1 by lia. cbv iota beta.
    unfold binary_round_aux, shr_fexp.
    cbn [Zdigits2]. rewrite Ht.
    change (fexp JS.prec JS.emax (Z.pos (digits2_pos q) + e)) with t. rewrite E.
    replace (t - (e - 1)) with 1 by lia.
    cbn [shr shr_record_of_loc SpecFloat.iter_pos shr_1 orb].
    replace (e - 1 + 1) with e by lia. reflexivity.
  - replace (t - (e - 1)) with (Z.pos (Pos.succ n)) by lia. cbv iota beta.
    unfold binary_round_aux, shr_fexp.
    cbn [Zdigits2]. rewrite Ht.
    change (fexp JS.prec JS.emax (Z.pos (digits2_pos q) + e)) with t. rewrite E.
    replace (t - (e - 1)) with (Z.pos (Pos.succ n)) by lia.
    cbn [shr shr_record_of_loc].
    rewrite iter_pos_succ. cbn [shr_1 orb].
    replace (e - 1 + Z.pos (Pos.succ n)) with (e + Z.pos n) by lia.
    reflexivity.
  - destruct (Pos.eq_dec n 1%positive) as [->|Hn].
    + replace (t - (e - 1)) with 0 by lia. cbv iota beta.
      change (Pos.iter xO q 1%positive) with (xO q).
      replace (e - 1) with t by lia. reflexivity.
    + replace (t - (e - 1)) with (Z.neg (Pos.pred n)) by lia. cbv iota beta.
      replace (Pos.iter xO q n) with (Pos.iter xO (xO q) (Pos.pred n)); [reflexivity |].
      rewrite <- (Pos.succ_pred n Hn) at 2.
      by rewrite Pos.iter_succ, Pos.iter_swap.
Qed.

Lemma binary_normalize_double z e sz :
  binary_normalize JS.prec JS.emax (2 * z) (e - 1) sz
  = binary_normalize JS.prec JS.emax z e sz.
Proof.
  destruct z as [|p|p]; [reflexivity | |].
  - change (2 * Z.pos p) with (Z.pos (xO p)). apply binary_round_xO.
  - change (2 * Z.neg p) with (Z.neg (xO p)). apply binary_round_xO.
Qed.

Lemma binary_normalize_shift_nat (k : nat) : ∀ z e sz,
  binary_normalize JS.prec JS.emax (z * 2 ^ Z.of_nat k) (e - Z.of_nat k) sz
  = binary_normalize JS.prec JS.emax z e sz.
Proof.
  induction k as [|k IH]; intros z e sz.
  - by rewrite Z.mul_1_r, Z.sub_0_r.
  - replace (z * 2 ^ Z.of_nat (S k)) with (2 * (z * 2 ^ Z.of_nat k))
      by (rewrite Nat2Z.inj_succ, Z.pow_succ_r by lia; lia).
    replace (e - Z.of_nat (S k)) with (e - Z.of_nat k - 1) by lia.
    by rewrite binary_normalize_double, IH.
Qed.

(** Scaling the mantissa by a power of two against the exponent does not
    change what [binary_normalize] rounds to. *)
Lemma binary_normalize_shift z e k sz :
  0 <= k →
  binary_normalize JS.prec JS.emax (z * 2 ^ k) (e - k) sz
  = binary_normalize JS.prec JS.emax z e sz.
Proof.
  intros Hk. rewrite <- (Z2Nat.id k Hk). apply binary_normalize_shift_nat.
Qed.

Lemma digits2_pos_log2 p : Z.pos (digits2_pos p) = Z.log2 (Z.pos p) + 1.
Proof.
  assert (Hs : digits2_pos p = Pos.size p) by (induction p; cbn; congruence).
  rewrite Hs. destruct p; cbn [Z.log2 Pos.size]; lia.
Qed.

(** A 53-bit mantissa with an exponent in range is already normal. *)
Lemma binary_round_canonical s m e :
  Z.pos (digits2_pos m) = 53 → -1074 <= e <= 971 →
  binary_round JS.prec JS.emax s m e = S754_finite s m e.
Proof.
  intros Hd He.
  assert (Hf : fexp JS.prec JS.emax (Z.pos (digits2_pos m) + e) = e).
  { rewrite Hd. unfold fexp, emin, JS.prec, JS.emax. lia. }
  unfold binary_round. rewrite Hf. unfold shl_align. rewrite Z.sub_diag.
  unfold binary_round_aux, shr_fexp. cbn [Zdigits2 shr_record_of_loc].
  rewrite Hf, Z.sub_diag.
  cbn [shr loc_of_shr_record shr_m round_nearest_even Zdigits2 shr_record_of_loc].
  rewrite Hf, Z.sub_diag. cbn [shr shr_m].
  replace (e <=? JS.emax - JS.prec) with true; [reflexivity |].
  symmetry. apply Z.leb_le. unfold JS.prec, JS.emax. lia.
Qed.

(** The Number of a non-zero integer within [-2^53, 2^53] denotes it. *)
Lemma of_Z_finite z :
  JS.safe z → z ≠ 0 →
  ∃ s m e,
    JS.of_Z z = S754_finite s m e
    ∧ -52 <= e <= 1
    ∧ cond_Zopp s (Z.pos m) * 2 ^ (e + 52) = z * 2 ^ 52.
Proof.
  intros Hs Hz.
  assert (Hpos : ∀ s p, Z.pos p <= 2 ^ 53 →
            ∃ m e, binary_round JS.prec JS.emax s p 0 = S754_finite s m e
                   ∧ -52 <= e <= 1
                   ∧ Z.pos m * 2 ^ (e + 52) = Z.pos p * 2 ^ 52).
  { intros s p Hp.
    destruct (Z.eq_dec (Z.pos p) (2 ^ 53)) as [E|E].
    - injection E as ->. exists (4503599627370496)%positive, 1.
      split; [by destruct s; vm_compute |]. split; [lia | reflexivity].
    - assert (Hlt : Z.pos p < 2 ^ 53) by lia.
      assert (Hl : 0 <= Z.log2 (Z.pos p) < 53).
      { split; [apply Z.log2_nonneg | apply Z.log2_lt_pow2; lia]. }
      set (k := 52 - Z.log2 (Z.pos p)).
      assert (Hk : 0 <= k <= 52) by (subst k; lia).
      assert (HM : 0 < Z.pos p * 2 ^ k) by (apply Z.mul_pos_pos; lia).
      destruct (Z.pos p * 2 ^ k) as [|M|M] eqn:EM; try lia.
      exists M, (- k).
      assert (Hd : Z.pos (digits2_pos M) = 53).
      { rewrite digits2_pos_log2, <- EM, Z.log2_mul_pow2 by lia. subst k. lia. }
      split.
      + transitivity (binary_round JS.prec JS.emax s M (- k)).
        * pose proof (binary_normalize_shift (cond_Zopp s (Z.pos p)) 0 k false
                        (proj1 Hk)) as Hsh.
          rewrite Z.sub_0_l in Hsh.
          destruct s; cbn [cond_Zopp] in Hsh.
          -- rewrite Z.mul_opp_l, EM in Hsh. exact (eq_sym Hsh).
          -- rewrite EM in Hsh. exact (eq_sym Hsh).
        * apply binary_round_canonical; [exact Hd | lia].
      + split; [lia |].
        rewrite <- EM, <- Z.mul_assoc, <- Z.pow_add_r by lia.
        f_equal. f_equal. lia. }
  destruct z as [|p|p]; [done | |].
  - destruct (Hpos false p) as (m & e & H1 & H2 & H3); [unfold JS.safe in Hs; lia |].
    exists false, m, e. split; [exact H1 |]. split; [exact H2 | exact H3].
  - destruct (Hpos true p) as (m & e & H1 & H2 & H3); [unfold JS.safe in Hs; lia |].
    exists true, m, e. split; [exact H1 |]. split; [exact H2 |].
    cbn [cond_Zopp]. rewrite <- Pos2Z.opp_pos, !Z.mul_opp_l, H3. reflexivity.
Qed.

Lemma pos_iter_xO m d : Z.pos (Pos.iter xO m d) = Z.pos m * 2 ^ Z.pos d.
Proof.
  induction d as [|d IH] using Pos.peano_ind.
  - cbn [Pos.iter]. lia.
  - rewrite Pos.iter_succ, Pos2Z.inj_succ, Z.pow_succ_r by lia.
    rewrite Pos2Z.inj_xO, IH. lia.
Qed.

Lemma shl_align_value m e e' :
  e' <= e → Z.pos (shl_align m e e').1 = Z.pos m * 2 ^ (e - e').
Proof.
  intros He. unfold shl_align.
  destruct (e' - e) as [|d|d] eqn:E; try lia.
  - replace (e - e') with 0 by lia. cbn [fst]. lia.
  - cbn [fst]. rewrite pos_iter_xO. f_equal. f_equal. lia.
Qed.

(** Binary64 addition of the Numbers of two integers within
    [-2^53, 2^53] is the Number of their sum. *)
Lemma add_of_Z a b :
  JS.safe a → JS.safe b → JS.add (JS.of_Z a) (JS.of_Z b) = JS.of_Z (a + b).
Proof.
  intros Ha Hb.
  destruct (Z.eq_dec a 0) as [->|Ha0].
  { rewrite Z.add_0_l. destruct (Z.eq_dec b 0) as [->|Hb0]; [reflexivity |].
    by destruct (of_Z_finite b Hb Hb0) as (sb & mb & eb & -> & _). }
  destruct (Z.eq_dec b 0) as [->|Hb0].
  { rewrite Z.add_0_r.
    by destruct (of_Z_finite a Ha Ha0) as (sa & ma & ea & -> & _). }
  destruct (of_Z_finite a Ha Ha0) as (sa & ma & ea & -> & Hea & Hva).
  destruct (of_Z_finite b Hb Hb0) as (sb & mb & eb & -> & Heb & Hvb).
  unfold JS.add, SFadd.
  set (ez := Z.min ea eb).
  assert (Hez : -52 <= ez <= 1) by (subst ez; lia).
  set (S := cond_Zopp sa (Z.pos (shl_align ma ea ez).1)
            + cond_Zopp sb (Z.pos (shl_align mb eb ez).1)).
  assert (HS : S * 2 ^ (ez + 52) = (a + b) * 2 ^ 52).
  { subst S. rewrite !shl_align_value by (subst ez; lia).
    rewrite Z.mul_add_distr_r, Z.mul_add_distr_r, <- Hva, <- Hvb.
    f_equal.
    - destruct sa; cbn [cond_Zopp]; rewrite ?Z.mul_opp_l;
        rewrite <- Z.mul_assoc, <- Z.pow_add_r by lia;
        by replace (ea - ez + (ez + 52)) with (ea + 52) by lia.
    - destruct sb; cbn [cond_Zopp]; rewrite ?Z.mul_opp_l;
        rewrite <- Z.mul_assoc, <- Z.pow_add_r by lia;
        by replace (eb - ez + (ez + 52)) with (eb + 52) by lia. }
  transitivity (binary_normalize JS.prec JS.emax (S * 2 ^ (ez + 52)) (ez - (ez + 52)) false).
  { symmetry. apply binary_normalize_shift. lia. }
  rewrite HS. replace (ez - (ez + 52)) with (0 - 52) by lia.
  apply binary_normalize_shift. lia.
Qed.

(** The Number of an integer within [-2^53, 2^53] denotes that integer. *)
Lemma to_Z_of_Z z : JS.safe z → JS.to_Z (JS.of_Z z) = Some z.
Proof.
  intros Hs. destruct (Z.eq_dec z 0) as [->|Hz]; [reflexivity |].
  destruct (of_Z_finite z Hs Hz) as (s & m & e & -> & He & Hv).
  unfold JS.to_Z.
  destruct (0 <=? e) eqn:E0.
  - apply Z.leb_le in E0. f_equal.
    assert (Hpow : 2 ^ (e + 52) = 2 ^ e * 2 ^ 52) by (apply Z.pow_add_r; lia).
    rewrite Hpow, Z.mul_assoc in Hv.
    apply Z.mul_reg_r in Hv; [exact Hv | lia].
  - apply Z.leb_gt in E0.
    assert (Hm : cond_Zopp s (Z.pos m) = z * 2 ^ (- e)).
    { assert (Hpow : 2 ^ 52 = 2 ^ (- e) * 2 ^ (e + 52)).
      { rewrite <- Z.pow_add_r by lia. f_equal. lia. }
      rewrite Hpow, Z.mul_assoc in Hv.
      apply Z.mul_reg_r in Hv; [exact Hv |].
      apply Z.pow_nonzero; lia. }
    assert (Hp : 0 < 2 ^ (- e)) by (apply Z.pow_pos_nonneg; lia).
    assert (Hmod : Z.pos m `mod` 2 ^ (- e) = 0).
    { destruct s; cbn [cond_Zopp] in Hm.
      - replace (Z.pos m) with ((- z) * 2 ^ (- e)) by lia.
        apply Z.mod_mul. lia.
      - rewrite Hm. apply Z.mod_mul. lia. }
    rewrite Hmod. cbn [Z.eqb]. f_equal. rewrite Hm. apply Z.div_mul. lia.
Qed.

(** ** Points ledger *)

Lemma checkAndAwardBadges_points now u :
  User.points (User.checkAndAwardBadges now u) = User.points u.
Proof. reflexivity. Qed.

Lemma addPoints_points now a r pr u :
  User.points (User.addPoints now a r pr u)
  = {| User.total := User.total (User.points u) + a;
       User.earned :=
         User.earned (User.points u)
           ++ [ {| User.amount := a; User.reason := r;
                   User.date := now; User.project := pr |} ] |}.
Proof. reflexivity. Qed.

Lemma sumZ_cons x l : sumZ (x :: l) = x + sumZ l.
Proof. reflexivity. Qed.

Lemma sumZ_app l k : sumZ (l ++ k) = sumZ l + sumZ k.
Proof. induction l as [|x l IH]; simpl; [reflexivity | rewrite IH; lia]. Qed.

Lemma addPoints_calls_points cs : ∀ u,
  User.points (addPoints_calls cs u)
  = {| User.total := User.total (User.points u) + sumZ (call_amount <$> cs);
       User.earned := User.earned (User.points u) ++ (entry_of <$> cs) |}.
Proof.
  induction cs as [|c cs IH]; intros u.
  - simpl. rewrite Z.add_0_r, app_nil_r. by destruct (User.points u).
  - change (addPoints_calls (c :: cs) u)
      with (addPoints_calls cs (addPoints_call u c)).
    rewrite IH. unfold addPoints_call.
    rewrite !addPoints_points, !fmap_cons, sumZ_cons.
    cbn [User.total User.earned]. f_equal; [lia |].
    by rewrite <- app_assoc.
Qed.

Lemma running64_safe amounts : ∀ start,
  JS.safe start → sums_safe start amounts →
  running64 start amounts = JS.of_Z (start + sumZ amounts).
Proof.
  unfold running64.
  induction amounts as [|a amounts IH]; intros start Hs Hsafe.
  - cbn [fold_left]. by rewrite Z.add_0_r.
  - destruct Hsafe as (Ha & Hsa & Hrest).
    cbn [fold_left]. rewrite add_of_Z by done.
    rewrite (IH (start + a) Hsa Hrest), sumZ_cons. f_equal. lia.
Qed.

(** C1, as stated, fails: [points.total] is a Number. After the credits
    of 2^53 points and of one point to a fresh user the engine holds the
    total 2^53, and the amounts appended sum to 2^53 + 1. *)
Theorem addPoints_ledger_2_53 :
  let amounts := call_amount <$> ex_calls_2_53 in
  ledger_ok User.fresh
  ∧ JS.to_Z (running64 (User.total (User.points User.fresh)) amounts)
    = Some (2 ^ 53)
  ∧ sumZ (User.amount
            <$> User.earned (User.points (addPoints_calls ex_calls_2_53 User.fresh)))
    = 2 ^ 53 + 1.
Proof. by vm_compute. Qed.

(** C1 (amended). From a user whose total is the sum of the logged
    amounts, a sequence of [addPoints] calls whose amounts and running
    totals are integers within [-2^53, 2^53] leaves the log equal to the
    old log followed by one entry per call, in call order; the total has
    grown by the sum of the amounts of the calls, it is the Number the
    engine computes, and it is again the sum of the log; the log has grown
    by the number of calls. For an empty log the total is the sum of the
    amounts appended and the length is the call count. *)
Theorem addPoints_ledger (u : User.t) (cs : list AddPointsCall) :
  ledger_ok u →
  JS.safe (User.total (User.points u)) →
  sums_safe (User.total (User.points u)) (call_amount <$> cs) →
  let u' := addPoints_calls cs u in
  User.earned (User.points u')
    = User.earned (User.points u) ++ (entry_of <$> cs)
  ∧ User.total (User.points u')
    = User.total (User.points u) + sumZ (call_amount <$> cs)
  ∧ JS.to_Z (running64 (User.total (User.points u)) (call_amount <$> cs))
    = Some (User.total (User.points u'))
  ∧ JS.safe (User.total (User.points u'))
  ∧ ledger_ok u'
  ∧ length (User.earned (User.points u'))
    = (length (User.earned (User.points u)) + length cs)%nat
  ∧ (User.earned (User.points u) = [] →
     User.total (User.points u') = sumZ (call_amount <$> cs)
     ∧ length (User.earned (User.points u')) = length cs).
Proof.
  intros Hu Hs Hsafe u'. subst u'. unfold ledger_ok in *.
  assert (Hend : JS.safe (User.total (User.points u) + sumZ (call_amount <$> cs))).
  { clear Hu. revert Hs Hsafe. generalize (User.total (User.points u)).
    induction (call_amount <$> cs) as [|a l IH]; intros t Hs Hsafe.
    - by rewrite Z.add_0_r.
    - destruct Hsafe as (_ & Hta & Hrest). rewrite sumZ_cons, Z.add_assoc.
      by apply IH. }
  rewrite addPoints_calls_points. simpl.
  assert (Hamt : User.amount <$> (entry_of <$> cs) = call_amount <$> cs).
  { rewrite <- list_fmap_compose. reflexivity. }
  split; [reflexivity |]. split; [reflexivity |].
  split; [rewrite running64_safe by done; by apply to_Z_of_Z |].
  split; [exact Hend |].
  repeat split.
  - rewrite fmap_app, sumZ_app, Hamt. lia.
  - by rewrite length_app, length_fmap.
  - rewrite H in Hu. simpl in Hu. lia.
  - rewrite H. simpl. by rewrite length_fmap.
Qed.

Lemma addPoints_ledger_witness :
  let cs := [ {| call_now := 10; call_amount := 150;
                 call_reason := "Task completed"; call_project := None |};
              {| call_now := 20; call_amount := 400;
                 call_reason := "Task completed"; call_project := Some 7%N |} ] in
  ledger_ok User.fresh
  ∧ User.total (User.points (addPoints_calls cs User.fresh)) = 550
  ∧ length (User.earned (User.points (addPoints_calls cs User.fresh))) = 2%nat.
Proof.
  intros cs.
  assert (H0 : ledger_ok User.fresh) by reflexivity.
  destruct (addPoints_ledger User.fresh cs H0) as (_ & _ & _ & _ & _ & _ & Hfresh).
  - by vm_compute.
  - repeat split; by vm_compute.
  - destruct (Hfresh eq_refl) as [Ht Hl].
    split; [exact H0 |]. split; [exact Ht | exact Hl].
Defined.

(** ** Badge evaluator *)

Section Award.
Context {A B : Type} (P : A → Prop) `{!∀ x, Decision (P x)} (mk : A → B).

(** A [forEach] that pushes under a condition appends the image of the
    entries that meet it, in table order. *)
Lemma award_fold (tbl : list A) : ∀ bs : list B,
  fold_left (fun bs x => if decide (P x) then bs ++ [mk x] else bs) tbl bs
  = bs ++ (mk <$> filter P tbl).
Proof.
  induction tbl as [|x tbl IH]; intros bs; simpl.
  - by rewrite app_nil_r.
  - rewrite IH, filter_cons. destruct (decide (P x)); [|done].
    by rewrite fmap_cons, <- app_assoc.
Qed.

Lemma filter_none (l : list A) : (∀ x, x ∈ l → ¬ P x) → filter P l = [].
Proof.
  induction l as [|x l IH]; intros Hall; [done |].
  rewrite filter_cons. destruct (decide (P x)) as [HP|_].
  - destruct (Hall x); [apply list_elem_of_here | exact HP].
  - apply IH. intros y Hy. apply Hall. by apply list_elem_of_further.
Qed.
End Award.

Lemma checkAndAwardBadges_badges now u :
  User.badges (User.checkAndAwardBadges now u)
  = User.badges u ++ awarded now u.
Proof.
  unfold User.checkAndAwardBadges, awarded. cbn [User.badges User.set_badges].
  apply (award_fold
           (fun b => User.total (User.points u) >= User.th_points b
                     ∧ User.th_name b ∉ (User.name <$> User.badges u))).
Qed.

Lemma awarded_names now u :
  User.name <$> awarded now u
  = User.th_name
      <$> filter
            (fun b => User.total (User.points u) >= User.th_points b
                      ∧ User.th_name b ∉ (User.name <$> User.badges u))
            User.badgeThresholds.
Proof. unfold awarded. rewrite <- list_fmap_compose. reflexivity. Qed.

Lemma badgeThresholds_names_NoDup : NoDup (User.th_name <$> User.badgeThresholds).
Proof. compute_done. Qed.

Lemma elem_of_badgeThresholds b :
  b ∈ User.badgeThresholds →
  (User.th_name b = "First Steps" ∧ User.th_points b = 100)
  ∨ (User.th_name b = "Bronze Contributor" ∧ User.th_points b = 500)
  ∨ (User.th_name b = "Silver Contributor" ∧ User.th_points b = 1000)
  ∨ (User.th_name b = "Gold Contributor" ∧ User.th_points b = 2000)
  ∨ (User.th_name b = "Platinum Contributor" ∧ User.th_points b = 5000).
Proof.
  unfold User.badgeThresholds. rewrite !elem_of_cons, elem_of_nil.
  intros [->|[->|[->|[->|[->|[]]]]]]; simpl; tauto.
Qed.

Lemma qualifies_threshold T n :
  qualifies T n ↔
  ∃ b, b ∈ User.badgeThresholds ∧ User.th_name b = n ∧ T >= User.th_points b.
Proof.
  split.
  - unfold qualifies.
    intros [[-> H]|[[-> H]|[[-> H]|[[-> H]|[-> H]]]]];
      [ exists (User.Build_Threshold 100 "First Steps" "Completed first task")
      | exists (User.Build_Threshold 500 "Bronze Contributor" "Earned 500 points")
      | exists (User.Build_Threshold 1000 "Silver Contributor" "Earned 1000 points")
      | exists (User.Build_Threshold 2000 "Gold Contributor" "Earned 2000 points")
      | exists (User.Build_Threshold 5000 "Platinum Contributor"
                  "Earned 5000 points") ];
      (split;
       [ repeat first [apply list_elem_of_here | apply list_elem_of_further]
       | split; [reflexivity | simpl; lia] ]).
  - intros (b & Hb & <- & HT).
    destruct (elem_of_badgeThresholds b Hb)
      as [[-> E]|[[-> E]|[[-> E]|[[-> E]|[-> E]]]]];
      rewrite E in HT; unfold qualifies;
      [ left | right; left | do 2 right; left | do 3 right; left | do 4 right ];
      (split; [reflexivity | lia]).
Qed.

Lemma awarded_name_iff now u n :
  n ∈ (User.name <$> awarded now u) ↔
  qualifies (User.total (User.points u)) n
  ∧ n ∉ (User.name <$> User.badges u).
Proof.
  rewrite awarded_names, list_elem_of_fmap, qualifies_threshold. split.
  - intros (b & -> & Hb). apply list_elem_of_filter in Hb as [[HT Hn] Hb].
    split; [exists b; auto | exact Hn].
  - intros [(b & Hb & <- & HT) Hn]. exists b. split; [reflexivity |].
    apply list_elem_of_filter. auto.
Qed.

Lemma awarded_names_NoDup now u : NoDup (User.name <$> awarded now u).
Proof.
  rewrite awarded_names.
  eapply sublist_NoDup; [apply badgeThresholds_names_NoDup |].
  apply fmap_sublist, sublist_filter.
Qed.

(** At an unchanged total a second run finds every qualifying name held. *)
Lemma awarded_again now now' u :
  awarded now' (User.checkAndAwardBadges now u) = [].
Proof.
  unfold awarded at 1. rewrite checkAndAwardBadges_points.
  rewrite checkAndAwardBadges_badges, fmap_app.
  match goal with |- _ <$> ?l = _ => assert (E : l = []); [|by rewrite E] end.
  apply filter_none. intros b Hb [HT Hn]. apply Hn.
  apply elem_of_app.
  destruct (decide (User.th_name b ∈ (User.name <$> User.badges u)));
    [by left | right].
  apply awarded_name_iff. split; [|done].
  apply qualifies_threshold. by exists b.
Qed.

Lemma set_badges_same u : User.set_badges (User.badges u) u = u.
Proof. by destruct u. Qed.

(** C2. One run of the evaluator at total T appends to the held badges a
    duplicate-free list whose names are exactly the names of the table
    (100 First Steps, 500 Bronze Contributor, 1000 Silver Contributor,
    2000 Gold Contributor, 5000 Platinum Contributor) with threshold at
    most T that are not held; the held badges stay, in place; the points
    are untouched, so a second run sees the same T, and it changes
    nothing; badge names that were distinct stay distinct. *)
Theorem checkAndAwardBadges_exact (now : Date) (u : User.t) :
  let T := User.total (User.points u) in
  let held := User.name <$> User.badges u in
  let u' := User.checkAndAwardBadges now u in
  ∃ added : list User.Badge,
    User.badges u' = User.badges u ++ added
    ∧ NoDup (User.name <$> added)
    ∧ (∀ n, n ∈ (User.name <$> added) ↔ qualifies T n ∧ n ∉ held)
    ∧ User.points u' = User.points u
    ∧ (∀ now', User.checkAndAwardBadges now' u' = u')
    ∧ (NoDup held → NoDup (User.name <$> User.badges u')).
Proof.
  intros T held u'. exists (awarded now u). subst T held u'.
  split; [apply checkAndAwardBadges_badges |].
  split; [apply awarded_names_NoDup |].
  split; [intros n; apply awarded_name_iff |].
  split; [reflexivity |].
  split.
  - intros now'.
    pose proof (checkAndAwardBadges_badges now'
                  (User.checkAndAwardBadges now u)) as E.
    rewrite awarded_again, app_nil_r in E.
    rewrite <- (set_badges_same (User.checkAndAwardBadges now u)) at 2.
    rewrite <- E. reflexivity.
  - intros Hheld. rewrite checkAndAwardBadges_badges, fmap_app.
    apply NoDup_app. split; [exact Hheld |].
    split; [|apply awarded_names_NoDup].
    intros n Hn Hadd. apply awarded_name_iff in Hadd as [_ Hnot]. by apply Hnot.
Qed.

(** ** Volunteer roster *)

Lemma list_find_user_None (vs : list Project.Volunteer) (userId : N) :
  list_find (fun v => Project.user v = userId) vs = None
  ↔ userId ∉ (Project.user <$> vs).
Proof.
  rewrite list_find_None, Forall_forall. split.
  - intros H (v & -> & Hv)%list_elem_of_fmap. by apply (H v).
  - intros H v Hv E. apply H. apply list_elem_of_fmap. by exists v.
Qed.

Lemma geb_true_iff (a b : Z) : (a >=? b) = true ↔ a >= b.
Proof. rewrite Z.geb_le. lia. Qed.

Lemma geb_false_iff (a b : Z) : (a >=? b) = false ↔ ¬ a >= b.
Proof. rewrite <- geb_true_iff. by destruct (a >=? b). Qed.

Lemma save_volunteers p : Project.volunteers (Project.save p) = Project.volunteers p.
Proof.
  unfold Project.save, Project.pre_save.
  by destruct (Project.modified_volunteers p).
Qed.

Lemma save_current p :
  Project.current (Project.requirements_volunteers (Project.save p))
  = if Project.modified_volunteers p
    then Project.acceptedCount (Project.volunteers p)
    else Project.current (Project.requirements_volunteers p).
Proof.
  unfold Project.save, Project.pre_save.
  by destruct (Project.modified_volunteers p).
Qed.

(** The invariant of the roster. *)
Lemma save_pushed vs p :
  let p' := Project.save (Project.set_volunteers vs p) in
  Project.volunteers p' = vs
  ∧ Project.current (Project.requirements_volunteers p')
    = Project.acceptedCount vs.
Proof. split; [by rewrite save_volunteers | by rewrite save_current]. Qed.

Lemma save_recounted i v s p :
  let p1 := Project.assign_status i v s p in
  let p' :=
    Project.save
      (Project.set_current (Project.acceptedCount (Project.volunteers p1)) p1) in
  Project.volunteers p' = Project.volunteers p1
  ∧ Project.current (Project.requirements_volunteers p')
    = Project.acceptedCount (Project.volunteers p').
Proof.
  intros p1 p'. subst p'. rewrite save_volunteers, save_current. split; [done |].
  cbn [Project.set_current Project.modified_volunteers Project.volunteers
       Project.requirements_volunteers Project.current].
  by destruct (Project.modified_volunteers p1).
Qed.

Lemma addVolunteer_roster_ok now userId role p p' :
  Project.addVolunteer now userId role p = (Returned, p') → roster_ok p'.
Proof.
  unfold Project.addVolunteer.
  destruct (list_find _ _) as [[i v]|]; [discriminate |].
  destruct (_ >=? _); [discriminate |].
  intros [= <-]. unfold roster_ok.
  by rewrite save_volunteers, save_current.
Qed.

Lemma updateVolunteerStatus_roster_ok userId s p p' :
  Project.updateVolunteerStatus userId s p = (Returned, p') → roster_ok p'.
Proof.
  unfold Project.updateVolunteerStatus.
  destruct (list_find _ _) as [[i v]|]; [|discriminate].
  intros [= <-]. apply save_recounted.
Qed.

Lemma applyToProject_roster_ok now actor pid db resp db' :
  Routes.applyToProject now actor pid db = (resp, db') →
  Routes.success resp = true →
  ∃ p', Routes.projects db' !! pid = Some p' ∧ roster_ok p'.
Proof.
  unfold Routes.applyToProject.
  destruct (Routes.projects db !! pid) as [project|];
    [|intros [= <- <-]; discriminate].
  destruct (negb _); [intros [= <- <-]; discriminate |].
  destruct (list_find _ _) as [[i v]|]; [intros [= <- <-]; discriminate |].
  destruct (_ >=? _); intros [= <- <-]; [discriminate |]. intros _.
  eexists. split; [apply lookup_insert_eq |].
  unfold roster_ok. by rewrite save_volunteers, save_current.
Qed.

Lemma updateVolunteer_roster_ok now actor pid vid s db resp db' :
  Routes.updateVolunteer now actor pid vid s db = (resp, db') →
  Routes.success resp = true →
  ∃ p', Routes.projects db' !! pid = Some p' ∧ roster_ok p'.
Proof.
  unfold Routes.updateVolunteer.
  destruct (Routes.projects db !! pid) as [project|];
    [|intros [= <- <-]; discriminate].
  destruct (_ && _); [intros [= <- <-]; discriminate |].
  destruct (list_find _ _) as [[i v]|]; [|intros [= <- <-]; discriminate].
  intros [= <- <-] _.
  exists (Project.save
            (Project.set_current
               (Project.acceptedCount
                  (Project.volunteers (Project.assign_status i v s project)))
               (Project.assign_status i v s project))).
  split; [|apply save_recounted].
  destruct (bool_decide _); [|apply lookup_insert_eq].
  cbn [Routes.users Routes.set_projects].
  destruct (Routes.users db !! vid); apply lookup_insert_eq.
Qed.

(** C3. After every roster mutation, [requirements.volunteers.current] is
    the number of roster entries whose status is 'accepted': after a call
    of [addVolunteer] or of [updateVolunteerStatus] that returns, whatever
    the project was before, and in the project each of the two handlers
    stores when it answers with success. *)
Theorem roster_current_counts_accepted :
  (∀ now userId role p p',
     Project.addVolunteer now userId role p = (Returned, p') → roster_ok p')
  ∧ (∀ userId s p p',
       Project.updateVolunteerStatus userId s p = (Returned, p') →
       roster_ok p')
  ∧ (∀ now actor pid db resp db',
       Routes.applyToProject now actor pid db = (resp, db') →
       Routes.success resp = true →
       ∃ p', Routes.projects db' !! pid = Some p' ∧ roster_ok p')
  ∧ (∀ now actor pid vid s db resp db',
       Routes.updateVolunteer now actor pid vid s db = (resp, db') →
       Routes.success resp = true →
       ∃ p', Routes.projects db' !! pid = Some p' ∧ roster_ok p').
Proof.
  split; [exact addVolunteer_roster_ok |].
  split; [exact updateVolunteerStatus_roster_ok |].
  split; [exact applyToProject_roster_ok | exact updateVolunteer_roster_ok].
Qed.

Lemma roster_current_counts_accepted_witness :
  roster_ok (Project.addVolunteer 7 3%N None ex_project).2
  ∧ roster_ok
      (Project.updateVolunteerStatus 1%N Project.v_accepted ex_project).2.
Proof.
  destruct roster_current_counts_accepted as (Hadd & Hupd & _ & _).
  split.
  - apply (Hadd 7 3%N None ex_project). reflexivity.
  - apply (Hupd 1%N Project.v_accepted ex_project). reflexivity.
Defined.

Lemma addVolunteer_present now userId role p :
  userId ∈ (Project.user <$> Project.volunteers p) →
  Project.addVolunteer now userId role p
  = (Thrown "User has already applied for this project", p).
Proof.
  intros Hin. unfold Project.addVolunteer.
  destruct (list_find _ _) as [[i v]|] eqn:E; [done |].
  by apply list_find_user_None in E.
Qed.

Lemma addVolunteer_full now userId role p :
  userId ∉ (Project.user <$> Project.volunteers p) →
  Project.current (Project.requirements_volunteers p)
    >= Project.total (Project.requirements_volunteers p) →
  Project.addVolunteer now userId role p = (Thrown "Project is full", p).
Proof.
  intros Hnot%list_find_user_None Hfull%geb_true_iff.
  unfold Project.addVolunteer. by rewrite Hnot, Hfull.
Qed.

Lemma addVolunteer_appends now userId role p :
  userId ∉ (Project.user <$> Project.volunteers p) →
  Project.current (Project.requirements_volunteers p)
    < Project.total (Project.requirements_volunteers p) →
  ∃ p',
    Project.addVolunteer now userId role p = (Returned, p')
    ∧ Project.volunteers p'
      = Project.volunteers p
          ++ [application now userId (default "volunteer"%string role)].
Proof.
  intros Hnot%list_find_user_None Hroom.
  assert (Hgeb : (Project.current (Project.requirements_volunteers p)
                    >=? Project.total (Project.requirements_volunteers p))
                 = false) by (apply geb_false_iff; lia).
  unfold Project.addVolunteer. rewrite Hnot, Hgeb.
  eexists. split; [reflexivity |]. by rewrite save_volunteers.
Qed.

Lemma applyToProject_cases now actor pid db project :
  Routes.projects db !! pid = Some project →
  Project.status project = Project.active →
  let userId := Routes.id actor in
  let cap := Project.requirements_volunteers project in
  (userId ∈ (Project.user <$> Project.volunteers project) →
   Routes.applyToProject now actor pid db
   = (Routes.json 400 false "You have already applied for this project", db))
  ∧ (userId ∉ (Project.user <$> Project.volunteers project) →
     Project.current cap >= Project.total cap →
     Routes.applyToProject now actor pid db
     = (Routes.json 400 false "Project is full", db))
  ∧ (userId ∉ (Project.user <$> Project.volunteers project) →
     Project.current cap < Project.total cap →
     ∃ p',
       Routes.applyToProject now actor pid db
       = (Routes.json 200 true "Application submitted successfully",
          Routes.set_projects (<[pid := p']> (Routes.projects db)) db)
       ∧ Project.volunteers p'
         = Project.volunteers project
             ++ [application now userId "volunteer"]).
Proof.
  intros Hp Hactive userId cap. subst userId cap.
  unfold Routes.applyToProject. rewrite Hp, Hactive.
  rewrite bool_decide_eq_true_2 by reflexivity. cbn [negb].
  split; [|split].
  - intros Hin.
    destruct (list_find _ _) as [[i v]|] eqn:E; [done |].
    by apply list_find_user_None in E.
  - intros Hnot%list_find_user_None Hfull%geb_true_iff.
    by rewrite Hnot, Hfull.
  - intros Hnot%list_find_user_None Hroom.
    rewrite Hnot.
    rewrite (proj2 (geb_false_iff _ _)) by lia.
    eexists. split; [reflexivity |]. by rewrite save_volunteers.
Qed.

(** C4. [addVolunteer] throws 'User has already applied for this project'
    when the user is in the roster, whatever the status of that entry;
    otherwise it throws 'Project is full' when
    [requirements.volunteers.current >= requirements.volunteers.total];
    otherwise it returns and the roster is the old roster followed by the
    one entry for the user, with status 'applied'. After either throw the
    project is as it was. The handler of POST /api/projects/:id/apply makes
    the same three-way decision on an active project, answers 400 in the
    two failure cases and leaves the database as it was. *)
Theorem apply_decision (now : Date) (userId : ObjectId) (role : option string)
    (p : Project.t) :
  let cap := Project.requirements_volunteers p in
  (userId ∈ (Project.user <$> Project.volunteers p) →
   Project.addVolunteer now userId role p
   = (Thrown "User has already applied for this project", p))
  ∧ (userId ∉ (Project.user <$> Project.volunteers p) →
     Project.current cap >= Project.total cap →
     Project.addVolunteer now userId role p = (Thrown "Project is full", p))
  ∧ (userId ∉ (Project.user <$> Project.volunteers p) →
     Project.current cap < Project.total cap →
     ∃ p',
       Project.addVolunteer now userId role p = (Returned, p')
       ∧ Project.volunteers p'
         = Project.volunteers p
             ++ [ {| Project.user := userId; Project.joinedDate := now;
                     Project.v_status := Project.v_applied;
                     Project.role := default "volunteer"%string role;
                     Project.hoursContributed := 0 |} ])
  ∧ (∀ (actor : Routes.Actor) (pid : ObjectId) (db : Routes.DB),
       Routes.id actor = userId →
       Routes.projects db !! pid = Some p →
       Project.status p = Project.active →
       (userId ∈ (Project.user <$> Project.volunteers p) →
        Routes.applyToProject now actor pid db
        = (Routes.json 400 false "You have already applied for this project",
           db))
       ∧ (userId ∉ (Project.user <$> Project.volunteers p) →
          Project.current cap >= Project.total cap →
          Routes.applyToProject now actor pid db
          = (Routes.json 400 false "Project is full", db))
       ∧ (userId ∉ (Project.user <$> Project.volunteers p) →
          Project.current cap < Project.total cap →
          ∃ p',
            Routes.applyToProject now actor pid db
            = (Routes.json 200 true "Application submitted successfully",
               Routes.set_projects (<[pid := p']> (Routes.projects db)) db)
            ∧ Project.volunteers p'
              = Project.volunteers p
                  ++ [ {| Project.user := userId; Project.joinedDate := now;
                          Project.v_status := Project.v_applied;
                          Project.role := "volunteer";
                          Project.hoursContributed := 0 |} ])).
Proof.
  intros cap. subst cap.
  split; [apply addVolunteer_present |].
  split; [apply addVolunteer_full |].
  split; [apply addVolunteer_appends |].
  intros actor pid db <- Hp Hactive.
  apply (applyToProject_cases now actor pid db p Hp Hactive).
Qed.

Lemma apply_decision_witness :
  Project.addVolunteer 7 2%N None ex_project
  = (Thrown "User has already applied for this project", ex_project)
  ∧ Project.addVolunteer 7 3%N None ex_full
    = (Thrown "Project is full", ex_full)
  ∧ ∃ p', Project.addVolunteer 7 3%N None ex_project = (Returned, p')
          ∧ length (Project.volunteers p') = 3%nat.
Proof.
  split; [|split].
  - apply (apply_decision 7 2%N None ex_project). compute_done.
  - apply (apply_decision 7 3%N None ex_full); [compute_done | simpl; lia].
  - destruct (apply_decision 7 3%N None ex_project) as (_ & _ & H & _).
    destruct H as (p' & E & Hv); [compute_done | simpl; lia |].
    exists p'. split; [exact E | by rewrite Hv].
Defined.

(** ** Task lifecycle *)

Lemma to_Z_of_Z_percent (c : Z) : 0 ≤ c ≤ 100 → JS.to_Z (JS.of_Z c) = Some c.
Proof.
  intros Hc.
  assert (H : Forall (fun c => JS.to_Z (JS.of_Z c) = Some c) (seqZ 0 101))
    by compute_done.
  rewrite Forall_forall in H. apply H, elem_of_seqZ. lia.
Qed.

Lemma clamp_100 p : clamp p = 100 ↔ p >= 100.
Proof. unfold clamp. lia. Qed.

Lemma updateProgress_progress now p msg by_ atts k :
  Task.progress (Task.updateProgress now p msg by_ atts k)
  = {| Task.percentage := JS.of_Z (clamp p);
       Task.updates :=
         Task.updates (Task.progress k)
           ++ [ {| Task.message := msg; Task.date := now;
                   Task.updatedBy := by_; Task.attachments := atts |} ] |}.
Proof.
  unfold Task.updateProgress.
  by destruct (_ && _).
Qed.

Lemma updateProgress_status now p msg by_ atts k :
  Task.status (Task.updateProgress now p msg by_ atts k)
  = if decide (p >= 100 ∧ Task.status k ≠ Task.completed)
    then Task.completed else Task.status k.
Proof.
  unfold Task.updateProgress. cbn [Task.status Task.set_progress Task.set_percentage].
  destruct (decide _) as [[Hp Hs]|Hn].
  - rewrite (proj2 (geb_true_iff _ _) Hp), bool_decide_eq_false_2 by done.
    reflexivity.
  - destruct (p >=? 100) eqn:E; [|reflexivity].
    apply geb_true_iff in E.
    rewrite bool_decide_eq_true_2; [reflexivity |].
    destruct (decide (Task.status k = Task.completed)); [done | tauto].
Qed.

Lemma updateProgress_completedDate now p msg by_ atts k :
  Task.completedDate (Task.timeline (Task.updateProgress now p msg by_ atts k))
  = if decide (p >= 100 ∧ Task.status k ≠ Task.completed)
    then Some now else Task.completedDate (Task.timeline k).
Proof.
  unfold Task.updateProgress. cbn [Task.status Task.set_progress Task.set_percentage].
  destruct (decide _) as [[Hp Hs]|Hn].
  - rewrite (proj2 (geb_true_iff _ _) Hp), bool_decide_eq_false_2 by done.
    reflexivity.
  - destruct (p >=? 100) eqn:E; [|reflexivity].
    apply geb_true_iff in E.
    rewrite bool_decide_eq_true_2; [reflexivity |].
    destruct (decide (Task.status k = Task.completed)); [done | tauto].
Qed.

(** C5, as stated, fails: on a task that is 'completed' and has no
    [completedDate], [updateProgress] with 100 does not stamp one. Such a
    task is what PUT /api/tasks/:id with the body [{status: 'completed'}]
    makes of the default task. *)
Lemma updateProgress_100_undated :
  Routes.tasks
    (Routes.updateTask_status ex_admin 1%N Task.completed ex_db_pending).2
    !! 1%N = Some ex_task_undated
  ∧ Task.status ex_task_undated = Task.completed
  ∧ ¬ is_Some
        (Task.completedDate
           (Task.timeline
              (Task.updateProgress 50 100 "all done" 2%N [] ex_task_undated))).
Proof.
  split; [reflexivity |]. split; [reflexivity |].
  intros [d Hd]. discriminate Hd.
Qed.

(** C5 (amended). Called with a message that is not empty and with no
    attachments, [updateProgress] stores the input clamped into [0,100],
    appends exactly one update record, and moves the status to 'completed'
    with [completedDate] stamped exactly when the clamped value is 100 and
    the status was not 'completed'; otherwise status and [completedDate]
    stay as they were. With 100 the status is 'completed' afterwards, and
    a further such call with 100 changes neither status nor
    [completedDate]; [completedDate] is set afterwards exactly when the
    task was not 'completed' before the call or already had one. *)
Theorem updateProgress_effect (now : Date) (p : Z) (msg : string)
    (by_ : ObjectId) (k : Task.t) :
  msg ≠ ""%string →
  let k' := Task.updateProgress now p msg by_ [] k in
  0 ≤ clamp p ≤ 100
  ∧ JS.to_Z (Task.percentage (Task.progress k')) = Some (clamp p)
  ∧ Task.updates (Task.progress k')
    = Task.updates (Task.progress k)
        ++ [ {| Task.message := msg; Task.date := now;
                Task.updatedBy := by_; Task.attachments := [] |} ]
  ∧ (clamp p = 100 ∧ Task.status k ≠ Task.completed →
     Task.status k' = Task.completed
     ∧ Task.completedDate (Task.timeline k') = Some now)
  ∧ (¬ (clamp p = 100 ∧ Task.status k ≠ Task.completed) →
     Task.status k' = Task.status k
     ∧ Task.completedDate (Task.timeline k')
       = Task.completedDate (Task.timeline k))
  ∧ (p = 100 →
     Task.status k' = Task.completed
     ∧ (is_Some (Task.completedDate (Task.timeline k'))
        ↔ Task.status k ≠ Task.completed
          ∨ is_Some (Task.completedDate (Task.timeline k)))
     ∧ ∀ now2 msg2 by2,
         msg2 ≠ ""%string →
         let k'' := Task.updateProgress now2 100 msg2 by2 [] k' in
         Task.status k'' = Task.completed
         ∧ Task.completedDate (Task.timeline k'')
           = Task.completedDate (Task.timeline k')).
Proof.
  intros _ k'. subst k'.
  rewrite updateProgress_progress, updateProgress_status,
    updateProgress_completedDate.
  cbn [Task.percentage Task.updates].
  assert (Hc : 0 ≤ clamp p ≤ 100) by (unfold clamp; lia).
  split; [exact Hc |].
  split; [by apply to_Z_of_Z_percent |].
  split; [reflexivity |].
  split; [|split].
  - intros [Hp%clamp_100 Hs].
    destruct (decide _) as [|Hn]; [done | exfalso; by apply Hn].
  - intros Hn.
    destruct (decide _) as [[Hp Hs]|]; [|done].
    exfalso. apply Hn. by rewrite clamp_100.
  - intros ->.
    assert (Hs : (if decide (100 >= 100 ∧ Task.status k ≠ Task.completed)
                  then Task.completed else Task.status k) = Task.completed).
    { destruct (decide _) as [|Hn]; [done |].
      destruct (decide (Task.status k = Task.completed)); [done |].
      exfalso. apply Hn. split; [lia | done]. }
    split; [exact Hs |]. split.
    + destruct (decide _) as [[_ Hne]|Hn].
      * split; [intros _; by left | intros _; by eexists].
      * split; [intros Hd; by right |]. intros [Hne|Hd]; [|exact Hd].
        exfalso. apply Hn. split; [lia | done].
    + intros now2 msg2 by2 _.
      rewrite updateProgress_status, updateProgress_completedDate.
      rewrite updateProgress_status, Hs.
      destruct (decide (100 >= 100 ∧ Task.completed ≠ Task.completed))
        as [[_ Hne]|_]; [done |].
      by rewrite updateProgress_completedDate.
Qed.

Lemma updateProgress_effect_witness :
  let k' := Task.updateProgress 50 100 "all done" 2%N [] ex_task in
  Task.status k' = Task.completed
  ∧ Task.completedDate (Task.timeline k') = Some 50.
Proof.
  intros k'.
  destruct (updateProgress_effect 50 100 "all done" 2%N ex_task)
    as (_ & _ & _ & H & _); [done |].
  apply H. split; [reflexivity | discriminate].
Defined.

Lemma completeDeliverable_missing now id file k :
  list_find (fun d => Task.d_id d = id) (Task.deliverables k) = None →
  Task.completeDeliverable now id file k = (Thrown "Deliverable not found", k).
Proof. intros E. unfold Task.completeDeliverable. by rewrite E. Qed.

Lemma completeDeliverable_found now id file k i d :
  list_find (fun d => Task.d_id d = id) (Task.deliverables k) = Some (i, d) →
  ∃ d' k',
    Task.completeDeliverable now id file k = (Returned, k')
    ∧ Task.deliverables k' = <[i := d']> (Task.deliverables k)
    ∧ Task.d_id d' = id
    ∧ Task.d_status d' = Task.d_completed
    ∧ Task.percentage (Task.progress k')
      = JS.round_percent (Task.completedCount (Task.deliverables k'))
          (Z.of_nat (length (Task.deliverables k')))
    ∧ Task.status k' = Task.status k
    ∧ Task.timeline k' = Task.timeline k.
Proof.
  intros E. unfold Task.completeDeliverable. rewrite E.
  apply list_find_Some in E as (_ & Hid & _).
  eexists _, _. split; [reflexivity |].
  split; [reflexivity |].
  split; [by destruct file as [[? ?]|] |].
  split; [by destruct file as [[? ?]|] |].
  done.
Qed.


(** Below forty deliverables the stored percentage is the nearest integer
    to the exact quotient. *)
Lemma round_percent_below_40 (c n : Z) :
  1 ≤ n < 40 → 0 ≤ c ≤ n →
  JS.to_Z (JS.round_percent c n) = Some (round_half_up (100 * c) n).
Proof.
  intros Hn Hc.
  assert (H : Forall
                (fun n =>
                   Forall
                     (fun c => JS.to_Z (JS.round_percent c n)
                               = Some (round_half_up (100 * c) n))
                     (seqZ 0 (n + 1)))
                (seqZ 1 39)) by compute_done.
  rewrite Forall_forall in H.
  specialize (H n). rewrite Forall_forall in H.
  apply H; apply elem_of_seqZ; lia.
Qed.

(** One of three deliverables completed gives 33, whatever
    [updateProgress] had stored. *)
Lemma completeDeliverable_1_of_3 :
  let k := Task.updateProgress 5 80 "nearly there" 2%N [] ex_task_3 in
  let '(o, k') := Task.completeDeliverable 6 2%N None k in
  JS.to_Z (Task.percentage (Task.progress k)) = Some 80
  ∧ o = Returned
  ∧ Task.completedCount (Task.deliverables k') = 1
  ∧ length (Task.deliverables k') = 3%nat
  ∧ JS.to_Z (Task.percentage (Task.progress k')) = Some 33.
Proof. vm_compute. repeat split. Qed.

(** C7. Completing the 23rd of 40 deliverables stores 57: the quotient
    23/40 is rounded to binary64 before it is multiplied by 100, the
    product is 57.49999999999999 and [Math.round] takes it down, while
    [round(100 * 23 / 40)] is [round(57.5) = 58]. *)
Theorem completeDeliverable_23_of_40 :
  let '(o, k') := Task.completeDeliverable 0 23%N None ex_task_40 in
  o = Returned
  ∧ length (Task.deliverables k') = 40%nat
  ∧ Task.completedCount (Task.deliverables k') = 23
  ∧ JS.to_Z (Task.percentage (Task.progress k')) = Some 57
  ∧ round_half_up (100 * 23) 40 = 58.
Proof. vm_compute. repeat split. Qed.






(** C9, as stated, fails: on a task with no deliverables the call throws
    at the lookup and does not return, so the recomputation of
    [progress.percentage], which follows the lookup, is not reached. *)
Lemma completeDeliverable_empty_throws :
  Task.deliverables ex_task = []
  ∧ ¬ ∃ k', Task.completeDeliverable 60 1%N None ex_task = (Returned, k').
Proof. split; [reflexivity |]. intros [k' H]. discriminate H. Qed.

(** C9 (amended). On a task with no deliverables [completeDeliverable]
    throws 'Deliverable not found' for every id and leaves the task as it
    was; when the call returns, the list it divides by holds the
    deliverable it completed, so the divisor is at least 1. *)
Theorem completeDeliverable_guarded (now : Date) (id : ObjectId)
    (file : option (string * string)) (k : Task.t) :
  (Task.deliverables k = [] →
   Task.completeDeliverable now id file k
   = (Thrown "Deliverable not found", k))
  ∧ (∀ k', Task.completeDeliverable now id file k = (Returned, k') →
       1 ≤ Z.of_nat (length (Task.deliverables k'))
       ∧ length (Task.deliverables k') = length (Task.deliverables k)
       ∧ Task.percentage (Task.progress k')
         = JS.round_percent (Task.completedCount (Task.deliverables k'))
             (Z.of_nat (length (Task.deliverables k')))).
Proof.
  split.
  - intros E. apply completeDeliverable_missing. by rewrite E.
  - intros k' H.
    destruct (list_find (fun d => Task.d_id d = id) (Task.deliverables k))
      as [[i d]|] eqn:E.
    + pose proof E as (Hi & _)%list_find_Some.
      apply lookup_lt_Some in Hi.
      destruct (completeDeliverable_found now id file k i d E)
        as (d' & k2 & H2 & Hds & _ & _ & Hp & _).
      rewrite H2 in H. injection H as <-.
      rewrite Hp, Hds, length_insert. split; [lia | done].
    + rewrite (completeDeliverable_missing now id file k E) in H.
      discriminate H.
Qed.

Lemma completeDeliverable_guarded_witness :
  Task.completeDeliverable 60 1%N None ex_task
  = (Thrown "Deliverable not found", ex_task)
  ∧ 1 ≤ Z.of_nat
          (length
             (Task.deliverables
                (Task.completeDeliverable 60 1%N None ex_task_3).2)).
Proof.
  split.
  - apply (completeDeliverable_guarded 60 1%N None ex_task). reflexivity.
  - apply (completeDeliverable_guarded 60 1%N None ex_task_3). reflexivity.
Defined.

(** [Math.round(0 / 0 * 100)] is NaN; a division by zero does not throw. *)
Remark round_percent_0_0 : JS.round_percent 0 0 = S754_nan.
Proof. reflexivity. Qed.

(** ** Task completion workflow *)







(** ** Rank and percentile *)

Lemma countDocuments_above m x c :
  Routes.countDocuments (fun u => m u > x ∧ User.isActive u = true) c
  = active_above m x c.
Proof.
  unfold Routes.countDocuments, active_above. do 2 f_equal.
  apply map_filter_ext. intros i u _. simpl. tauto.
Qed.

Lemma countDocuments_positive m c :
  Routes.countDocuments (fun u => User.isActive u = true ∧ m u > 0) c
  = active_above m 0 c.
Proof. reflexivity. Qed.

Lemma rankAndTotal_counts m user c :
  Routes.rankAndTotal m user c
  = (active_above m (m user) c + 1, active_above m 0 c).
Proof.
  unfold Routes.rankAndTotal.
  by rewrite countDocuments_above, countDocuments_positive.
Qed.

(** The rank is one more than the number of active users strictly above;
    the total counts the active users with a positive metric; the
    percentile is 0 for an empty total and the handler's
    [Math.round(((total - rank + 1) / total) * 100)] otherwise. *)
Lemma userRank_counts type m userId user db :
  metric_of type = Some m →
  Routes.users db !! userId = Some user →
  ∃ r,
    Routes.userRank userId (Some type) db = (Routes.json 200 true "", Some r)
    ∧ Routes.rank r = 1 + active_above m (m user) (Routes.users db)
    ∧ Routes.total r = active_above m 0 (Routes.users db)
    ∧ (Routes.total r = 0 → JS.to_Z (Routes.percentile r) = Some 0)
    ∧ (Routes.total r > 0 →
       Routes.percentile r
       = JS.round_percent (Routes.total r - Routes.rank r + 1)
           (Routes.total r)).
Proof.
  intros Hm Hu. unfold Routes.userRank, metric_of in *. rewrite Hu.
  change (default "points"%string (Some type)) with type.
  assert (Hpos : ∀ t : Z, t > 0 → (t >? 0) = true)
    by (intros t Ht; apply Z.gtb_lt; lia).
  destruct (String.eqb type "points");
    [|destruct (String.eqb type "projects");
      [|destruct (String.eqb type "hours"); [|discriminate]]];
    injection Hm as <-; rewrite rankAndTotal_counts;
    (eexists; split; [reflexivity |]);
    cbn [Routes.rank Routes.total Routes.percentile];
    (split; [lia |]); (split; [reflexivity |]);
    (split; [intros ->; reflexivity | intros Ht; by rewrite (Hpos _ Ht)]).
Qed.

(** With points 500, 300, 300, 100 each of the users with 300 has rank 2
    of 4 and percentile 75. *)
Lemma userRank_board :
  ∀ userId, userId = 2%N ∨ userId = 3%N →
    ∃ r, Routes.userRank userId None ex_board
         = (Routes.json 200 true "", Some r)
         ∧ Routes.rank r = 2 ∧ Routes.total r = 4
         ∧ JS.to_Z (Routes.percentile r) = Some 75.
Proof.
  intros userId [-> | ->]; eexists; (split; [vm_compute; reflexivity |]);
    vm_compute; done.
Qed.

(** C6. Among forty active users with 100, 200, ..., 4000 points the user
    with 2300 has rank 18 and the total is 40; the handler answers
    percentile 57: (40 - 18 + 1) / 40 is rounded to binary64 before it is
    multiplied by 100, the product is 57.49999999999999 and [Math.round]
    takes it down, while [round(100 * (40 - 18 + 1) / 40)] is
    [round(57.5) = 58]. *)
Theorem userRank_18_of_40 :
  ∃ r,
    Routes.userRank 23%N (Some "points"%string) ex_board_40
    = (Routes.json 200 true "", Some r)
    ∧ Routes.rank r = 18
    ∧ Routes.total r = 40
    ∧ JS.to_Z (Routes.percentile r) = Some 57
    ∧ round_half_up (100 * (Routes.total r - Routes.rank r + 1))
        (Routes.total r) = 58.
Proof. eexists. split; [vm_compute; reflexivity |]. vm_compute. done. Qed.

(** * Further properties *)
(** * Further properties *)

(** ** Lists updated in place *)

Section CountInsert.
Context {A : Type} (P : A → Prop) `{!∀ x, Decision (P x)}.

(** Overwriting one element moves the count of the elements that meet [P]
    by the difference of the two elements. *)
Lemma length_filter_insert (l : list A) : ∀ (i : nat) (x y : A),
  l !! i = Some x →
  (length (filter P (<[i := y]> l)) + indicator (P x)
   = length (filter P l) + indicator (P y))%nat.
Proof.
  unfold indicator.
  induction l as [|a l IH]; intros i x y Hi; [done |].
  destruct i as [|i]; simpl in *.
  - injection Hi as ->. rewrite !filter_cons.
    destruct (decide (P x)), (decide (P y)); simpl; lia.
  - rewrite !(filter_cons _ a). specialize (IH i x y Hi).
    destruct (decide (P a)); simpl; lia.
Qed.
End CountInsert.

(** ** Roster: what a status update touches *)

Lemma set_status_of_same v : Project.set_status_of (Project.v_status v) v = v.
Proof. by destruct v. Qed.

Lemma assign_status_volunteers i v s p :
  Project.volunteers p !! i = Some v →
  Project.volunteers (Project.assign_status i v s p)
  = <[i := Project.set_status_of s v]> (Project.volunteers p).
Proof.
  intros Hi. unfold Project.assign_status.
  destruct (bool_decide _) eqn:E; [|reflexivity].
  apply bool_decide_eq_true in E. subst s.
  by rewrite set_status_of_same, list_insert_id.
Qed.

Lemma assign_status_capacity i v s p :
  Project.total (Project.requirements_volunteers (Project.assign_status i v s p))
  = Project.total (Project.requirements_volunteers p)
  ∧ Project.status (Project.assign_status i v s p) = Project.status p
  ∧ Project.createdBy (Project.assign_status i v s p) = Project.createdBy p.
Proof. unfold Project.assign_status. by destruct (bool_decide _). Qed.

Lemma save_frame p :
  Project.total (Project.requirements_volunteers (Project.save p))
  = Project.total (Project.requirements_volunteers p)
  ∧ Project.status (Project.save p) = Project.status p
  ∧ Project.createdBy (Project.save p) = Project.createdBy p.
Proof. unfold Project.save, Project.pre_save. by destruct (Project.modified_volunteers p). Qed.

Lemma updateVolunteerStatus_found userId s p i v :
  list_find (fun v => Project.user v = userId) (Project.volunteers p) = Some (i, v) →
  ∃ p',
    Project.updateVolunteerStatus userId s p = (Returned, p')
    ∧ Project.volunteers p' = <[i := Project.set_status_of s v]> (Project.volunteers p)
    ∧ Project.current (Project.requirements_volunteers p')
      = Project.acceptedCount (Project.volunteers p')
    ∧ Project.total (Project.requirements_volunteers p')
      = Project.total (Project.requirements_volunteers p)
    ∧ Project.status p' = Project.status p.
Proof.
  intros E. unfold Project.updateVolunteerStatus. rewrite E.
  apply list_find_Some in E as (Hi & _ & _).
  eexists. split; [reflexivity |].
  destruct (save_recounted i v s p) as [Hv Hc].
  split; [by rewrite Hv, assign_status_volunteers |].
  split; [exact Hc |].
  destruct (save_frame
              (Project.set_current
                 (Project.acceptedCount
                    (Project.volunteers (Project.assign_status i v s p)))
                 (Project.assign_status i v s p))) as (-> & -> & _).
  destruct (assign_status_capacity i v s p) as (Ht & Hs & _).
  by split.
Qed.

Lemma roster_users_insert (vs : list Project.Volunteer) i v s :
  vs !! i = Some v →
  Project.user <$> <[i := Project.set_status_of s v]> vs = Project.user <$> vs.
Proof.
  intros Hi. rewrite list_fmap_insert. apply list_insert_id.
  by rewrite list_lookup_fmap, Hi.
Qed.

(** X1. A status update that returns rewrites the status of the first
    roster entry of that user and nothing else: the roster keeps its
    length, its users and their order, every other entry is as it was.
    So a user who is in the roster stays refused by [addVolunteer] after
    any status update, a rejection or a drop included. *)
Theorem updateVolunteerStatus_keeps_roster (userId : ObjectId)
    (s : Project.VolunteerStatus) (p p' : Project.t) :
  Project.updateVolunteerStatus userId s p = (Returned, p') →
  ∃ i v,
    Project.volunteers p !! i = Some v
    ∧ Project.user v = userId
    ∧ (∀ j w, Project.volunteers p !! j = Some w →
              Project.user w = userId → (i ≤ j)%nat)
    ∧ Project.volunteers p'
      = <[i := Project.set_status_of s v]> (Project.volunteers p)
    ∧ Project.user <$> Project.volunteers p'
      = Project.user <$> Project.volunteers p
    ∧ (∀ now u role,
         u ∈ (Project.user <$> Project.volunteers p) →
         Project.addVolunteer now u role p'
         = (Thrown "User has already applied for this project", p')).
Proof.
  intros H.
  destruct (list_find (fun v => Project.user v = userId) (Project.volunteers p))
    as [[i v]|] eqn:E.
  - destruct (updateVolunteerStatus_found userId s p i v E)
      as (p2 & H2 & Hv & _).
    rewrite H2 in H. injection H as <-.
    pose proof E as (Hi & Hu & Hfirst)%list_find_Some.
    exists i, v. split; [exact Hi |]. split; [exact Hu |].
    split.
    { intros j w Hj Hw. destruct (decide (i ≤ j)%nat) as [|Hlt]; [done |].
      exfalso. apply (Hfirst j w Hj); [lia | exact Hw]. }
    split; [exact Hv |].
    assert (Husers : Project.user <$> Project.volunteers p2
                     = Project.user <$> Project.volunteers p)
      by (rewrite Hv; by apply roster_users_insert).
    split; [exact Husers |].
    intros now u role Hin. apply addVolunteer_present. by rewrite Husers.
  - unfold Project.updateVolunteerStatus in H. rewrite E in H. discriminate H.
Qed.

Lemma updateVolunteerStatus_keeps_roster_witness :
  Project.addVolunteer 9 2%N None
    (Project.updateVolunteerStatus 2%N Project.v_dropped ex_project).2
  = (Thrown "User has already applied for this project",
     (Project.updateVolunteerStatus 2%N Project.v_dropped ex_project).2).
Proof.
  destruct (updateVolunteerStatus_keeps_roster 2%N Project.v_dropped ex_project
              (Project.updateVolunteerStatus 2%N Project.v_dropped ex_project).2)
    as (i & v & _ & _ & _ & _ & _ & H); [reflexivity |].
  apply H. compute_done.
Defined.

(** X2. Accepting a roster entry that is not accepted raises
    [requirements.volunteers.current] to one more than the accepted
    entries the roster had, whatever [requirements.volunteers.total] is:
    the update has no capacity test, so accepted volunteers can outnumber
    the capacity. *)
Theorem accept_has_no_capacity_test (userId : ObjectId) (p : Project.t)
    (i : nat) (v : Project.Volunteer) :
  list_find (fun v => Project.user v = userId) (Project.volunteers p) = Some (i, v) →
  Project.v_status v ≠ Project.v_accepted →
  ∃ p',
    Project.updateVolunteerStatus userId Project.v_accepted p = (Returned, p')
    ∧ Project.current (Project.requirements_volunteers p')
      = Project.acceptedCount (Project.volunteers p) + 1
    ∧ Project.total (Project.requirements_volunteers p')
      = Project.total (Project.requirements_volunteers p).
Proof.
  intros E Hs.
  destruct (updateVolunteerStatus_found userId Project.v_accepted p i v E)
    as (p' & H & Hv & Hc & Ht & _).
  exists p'. split; [exact H |]. split; [|exact Ht].
  rewrite Hc, Hv. unfold Project.acceptedCount.
  apply list_find_Some in E as (Hi & _ & _).
  pose proof (length_filter_insert
                (fun v => Project.v_status v = Project.v_accepted)
                (Project.volunteers p) i v
                (Project.set_status_of Project.v_accepted v) Hi) as Hn.
  unfold indicator in Hn.
  rewrite decide_False in Hn by exact Hs.
  rewrite decide_True in Hn by reflexivity. lia.
Qed.

Lemma accept_has_no_capacity_test_witness :
  ∃ p',
    Project.updateVolunteerStatus 2%N Project.v_accepted ex_small = (Returned, p')
    ∧ Project.current (Project.requirements_volunteers p') = 2
    ∧ Project.total (Project.requirements_volunteers p') = 1.
Proof.
  destruct (accept_has_no_capacity_test 2%N ex_small 1
              (application 6 2%N "volunteer"))
    as (p' & H & Hc & Ht); [reflexivity | discriminate |].
  exists p'. split; [exact H |]. split; [exact Hc | exact Ht].
Defined.

(** ** Roster: applications and capacity *)

Lemma acceptedCount_application vs now u r :
  Project.acceptedCount (vs ++ [application now u r]) = Project.acceptedCount vs.
Proof.
  unfold Project.acceptedCount. rewrite filter_app, length_app.
  rewrite filter_cons, decide_False by discriminate. simpl. lia.
Qed.

Lemma addVolunteer_room now u role p :
  u ∉ (Project.user <$> Project.volunteers p) →
  roster_ok p →
  Project.current (Project.requirements_volunteers p)
    < Project.total (Project.requirements_volunteers p) →
  ∃ p',
    Project.addVolunteer now u role p = (Returned, p')
    ∧ Project.volunteers p'
      = Project.volunteers p
          ++ [application now u (default "volunteer"%string role)]
    ∧ roster_ok p'
    ∧ Project.current (Project.requirements_volunteers p')
      = Project.current (Project.requirements_volunteers p)
    ∧ Project.total (Project.requirements_volunteers p')
      = Project.total (Project.requirements_volunteers p).
Proof.
  intros Hnot Hok Hroom.
  destruct (addVolunteer_appends now u role p Hnot Hroom) as (p' & H & Hv).
  exists p'. split; [exact H |]. split; [exact Hv |].
  pose proof (addVolunteer_roster_ok _ _ _ _ _ H) as Hok'.
  split; [exact Hok' |]. split.
  - unfold roster_ok in *. rewrite Hok', Hv, Hok.
    apply acceptedCount_application.
  - unfold Project.addVolunteer in H.
    apply list_find_user_None in Hnot. rewrite Hnot in H.
    destruct (_ >=? _); [discriminate |]. injection H as <-.
    by destruct (save_frame
                   (Project.set_volunteers
                      (Project.volunteers p
                         ++ [Project.new_volunteer now u
                               (default "volunteer"%string role)]) p))
      as (-> & _).
Qed.

(** X3. An application does not use up capacity: on a project whose
    [current] is the accepted count and is below [total], applications by
    any number of distinct users who are not in the roster all return; the
    roster grows by one 'applied' entry per user, in order, and [current]
    stays as it was. The roster can so grow beyond [total]. *)
Theorem applications_leave_capacity (now : Date) (us : list ObjectId)
    (p : Project.t) :
  NoDup us →
  (∀ u, u ∈ us → u ∉ (Project.user <$> Project.volunteers p)) →
  roster_ok p →
  Project.current (Project.requirements_volunteers p)
    < Project.total (Project.requirements_volunteers p) →
  ∃ p',
    addVolunteers now us p = (Returned, p')
    ∧ Project.volunteers p'
      = Project.volunteers p
          ++ ((fun u => application now u "volunteer") <$> us)
    ∧ Project.current (Project.requirements_volunteers p')
      = Project.current (Project.requirements_volunteers p).
Proof.
  revert p. induction us as [|u us IH]; intros p Hnd Hnew Hok Hroom.
  - exists p. by rewrite app_nil_r.
  - apply NoDup_cons in Hnd as [Hu Hnd].
    destruct (addVolunteer_room now u None p) as (p1 & H1 & Hv1 & Hok1 & Hc1 & Ht1);
      [apply Hnew; left | exact Hok | exact Hroom |].
    destruct (IH p1 Hnd) as (p' & H' & Hv' & Hc'); [| exact Hok1 | lia |].
    + intros u' Hu'. rewrite Hv1, fmap_app, elem_of_app.
      intros [Hin | Hin%list_elem_of_singleton].
      * by apply (Hnew u'); [right |].
      * simpl in Hin. by subst u'.
    + exists p'. simpl. rewrite H1. split; [exact H' |].
      split; [|lia]. rewrite Hv', Hv1, <- app_assoc. reflexivity.
Qed.

Lemma applications_leave_capacity_witness :
  ∃ p',
    addVolunteers 9 [3%N; 4%N; 5%N] ex_project = (Returned, p')
    ∧ length (Project.volunteers p') = 5%nat
    ∧ Project.total (Project.requirements_volunteers ex_project) = 2.
Proof.
  destruct (applications_leave_capacity 9 [3%N; 4%N; 5%N] ex_project)
    as (p' & H & Hv & _).
  - compute_done.
  - intros u Hu. revert u Hu. apply Forall_forall. compute_done.
  - reflexivity.
  - simpl. lia.
  - exists p'. split; [exact H |]. split; [by rewrite Hv | reflexivity].
Defined.

(** ** Task documents *)

Section FindInsert.
Context {A : Type} (P : A → Prop) `{!∀ x, Decision (P x)}.

(** Overwriting the element a search found by one that meets the test
    leaves it the element the search finds. *)
Lemma list_find_insert_found (l : list A) i x y :
  list_find P l = Some (i, x) → P y →
  list_find P (<[i := y]> l) = Some (i, y).
Proof.
  intros (Hi & _ & Hfirst)%list_find_Some Hy.
  apply list_find_Some. split; [|split; [exact Hy |]].
  - apply list_lookup_insert_eq. by eapply lookup_lt_Some.
  - intros j z Hj Hlt. rewrite list_lookup_insert_ne in Hj by lia.
    by apply (Hfirst j z).
Qed.
End FindInsert.

Lemma completeDeliverable_returns now id file k i d :
  list_find (fun d => Task.d_id d = id) (Task.deliverables k) = Some (i, d) →
  Task.completeDeliverable now id file k
  = (Returned,
     Task.save
       (Task.set_percentage
          (JS.round_percent
             (Task.completedCount
                (<[i := completed_deliverable now file d]> (Task.deliverables k)))
             (Z.of_nat
                (length
                   (<[i := completed_deliverable now file d]>
                      (Task.deliverables k)))))
          (Task.set_deliverables
             (<[i := completed_deliverable now file d]> (Task.deliverables k))
             k))).
Proof.
  intros E. unfold Task.completeDeliverable. rewrite E.
  by destruct file as [[fname fpath]|].
Qed.

Lemma completed_deliverable_twice now file d :
  completed_deliverable now file (completed_deliverable now file d)
  = completed_deliverable now file d.
Proof. by destruct file as [[fname fpath]|]. Qed.

(** X4. A call of [completeDeliverable] that returns rewrites the first
    deliverable with that id and no other: every other position of the
    list holds what it held. The call is idempotent: repeated with the
    same arguments at the same clock reading it returns and leaves the
    task as the first call left it. *)
Theorem completeDeliverable_first_match (now : Date) (id : ObjectId)
    (file : option (string * string)) (k k' : Task.t) :
  Task.completeDeliverable now id file k = (Returned, k') →
  ∃ i d,
    Task.deliverables k !! i = Some d
    ∧ Task.d_id d = id
    ∧ (∀ j e, Task.deliverables k !! j = Some e → Task.d_id e = id → (i ≤ j)%nat)
    ∧ Task.deliverables k' !! i = Some (completed_deliverable now file d)
    ∧ (∀ j, j ≠ i → Task.deliverables k' !! j = Task.deliverables k !! j)
    ∧ length (Task.deliverables k') = length (Task.deliverables k)
    ∧ Task.completeDeliverable now id file k' = (Returned, k').
Proof.
  intros H.
  destruct (list_find (fun d => Task.d_id d = id) (Task.deliverables k))
    as [[i d]|] eqn:E;
    [|rewrite (completeDeliverable_missing now id file k E) in H; discriminate].
  rewrite (completeDeliverable_returns now id file k i d E) in H.
  injection H as <-.
  pose proof E as (Hi & Hid & Hfirst)%list_find_Some.
  pose proof (lookup_lt_Some _ _ _ Hi) as Hlt.
  exists i, d. split; [exact Hi |]. split; [exact Hid |].
  split.
  { intros j e Hj He. destruct (decide (i ≤ j)%nat); [done |].
    exfalso. apply (Hfirst j e Hj); [lia | exact He]. }
  cbn [Task.deliverables Task.save Task.pre_save Task.set_points
       Task.set_percentage Task.set_progress Task.set_deliverables].
  split; [by apply list_lookup_insert_eq |].
  split; [intros j Hj; by apply list_lookup_insert_ne |].
  split; [apply length_insert |].
  assert (E' : list_find (fun d => Task.d_id d = id)
                 (<[i := completed_deliverable now file d]> (Task.deliverables k))
               = Some (i, completed_deliverable now file d)).
  { apply (list_find_insert_found (fun d => Task.d_id d = id)) with (x := d);
      [exact E | exact Hid]. }
  rewrite (completeDeliverable_returns now id file _ i
             (completed_deliverable now file d)) by exact E'.
  cbn [Task.deliverables Task.save Task.pre_save Task.set_points
       Task.set_percentage Task.set_progress Task.set_deliverables].
  rewrite completed_deliverable_twice, list_insert_insert_eq.
  reflexivity.
Qed.

Lemma completeDeliverable_first_match_witness :
  ∃ k',
    Task.completeDeliverable 60 2%N None ex_task_3 = (Returned, k')
    ∧ Task.completeDeliverable 60 2%N None k' = (Returned, k').
Proof.
  destruct (completeDeliverable_first_match 60 2%N None ex_task_3
              (Task.completeDeliverable 60 2%N None ex_task_3).2)
    as (i & d & _ & _ & _ & _ & _ & _ & H); [reflexivity |].
  eexists. split; [reflexivity | exact H].
Defined.

Lemma deliverableProgress_nonempty k :
  Task.deliverables k ≠ [] →
  Task.deliverableProgress k
  = JS.round_percent (Task.completedCount (Task.deliverables k))
      (Z.of_nat (length (Task.deliverables k))).
Proof.
  intros Hne. unfold Task.deliverableProgress.
  destruct (Task.deliverables k); [done | reflexivity].
Qed.

(** X5. A deliverable added under an id the task does not use (with a
    name and a type the schema admits) can be completed at once: the call
    returns and the list is the old list followed by the new deliverable,
    completed. Adding leaves
    [progress.percentage] as it was; after the completion the stored
    percentage is the one the virtual [deliverableProgress] computes. *)
Theorem addDeliverable_then_complete (now : Date) (newId : ObjectId)
    (name description type : string) (file : option (string * string))
    (k : Task.t) :
  name ≠ ""%string →
  type ∈ deliverable_types →
  newId ∉ (Task.d_id <$> Task.deliverables k) →
  let k1 := Task.addDeliverable newId name description type k in
  Task.percentage (Task.progress k1) = Task.percentage (Task.progress k)
  ∧ ∃ k2,
      Task.completeDeliverable now newId file k1 = (Returned, k2)
      ∧ Task.deliverables k2
        = Task.deliverables k
            ++ [ completed_deliverable now file
                   {| Task.d_id := newId; Task.d_name := name;
                      Task.d_description := description; Task.d_type := type;
                      Task.d_status := Task.d_pending; Task.d_file := None |} ]
      ∧ Task.deliverableProgress k2 = Task.percentage (Task.progress k2).
Proof.
  intros _ _ Hnew k1. split; [reflexivity |].
  set (d := {| Task.d_id := newId; Task.d_name := name;
               Task.d_description := description; Task.d_type := type;
               Task.d_status := Task.d_pending; Task.d_file := None |}).
  assert (E : list_find (fun d => Task.d_id d = newId) (Task.deliverables k1)
              = Some (length (Task.deliverables k), d)).
  { subst k1.
    cbn [Task.addDeliverable Task.deliverables Task.save Task.pre_save
         Task.set_points Task.set_deliverables].
    apply list_find_Some. split; [|split; [reflexivity |]].
    - by rewrite lookup_app_r, Nat.sub_diag by lia.
    - intros j e Hj Hlt He. rewrite lookup_app_l in Hj by lia.
      apply Hnew. apply list_elem_of_fmap. exists e. split; [done |].
      by eapply list_elem_of_lookup_2. }
  rewrite (completeDeliverable_returns now newId file k1 _ d E).
  eexists. split; [reflexivity |].
  assert (Hds : <[length (Task.deliverables k) := completed_deliverable now file d]>
                  (Task.deliverables k1)
                = Task.deliverables k ++ [completed_deliverable now file d]).
  { subst k1.
    cbn [Task.addDeliverable Task.deliverables Task.save Task.pre_save
         Task.set_points Task.set_deliverables].
    rewrite insert_app_r_alt, Nat.sub_diag by lia. reflexivity. }
  split.
  - cbn [Task.deliverables Task.save Task.pre_save Task.set_points
         Task.set_percentage Task.set_progress Task.set_deliverables].
    exact Hds.
  - rewrite deliverableProgress_nonempty.
    + reflexivity.
    + cbn [Task.deliverables Task.save Task.pre_save Task.set_points
           Task.set_percentage Task.set_progress Task.set_deliverables].
      rewrite Hds. by destruct (Task.deliverables k).
Qed.

Lemma addDeliverable_then_complete_witness :
  ∃ k2,
    Task.completeDeliverable 60 4%N None
      (Task.addDeliverable 4%N "summary" "" "report" ex_task_3)
    = (Returned, k2)
    ∧ length (Task.deliverables k2) = 4%nat.
Proof.
  destruct (addDeliverable_then_complete 60 4%N "summary" "" "report" None
              ex_task_3) as (_ & k2 & H & Hds & _);
    [done | compute_done | compute_done |].
  exists k2. split; [exact H | by rewrite Hds].
Defined.

Lemma task_extends_refl k : task_extends k k.
Proof.
  unfold task_extends. split; [exists []; by rewrite app_nil_r |].
  split; [intros i d Hd; exists d; auto |]. tauto.
Qed.

Lemma task_extends_trans k1 k2 k3 :
  task_extends k1 k2 → task_extends k2 k3 → task_extends k1 k3.
Proof.
  intros ([m1 U1] & D1 & C1 & A1 & B1 & N1 & P1 & Y1)
         ([m2 U2] & D2 & C2 & A2 & B2 & N2 & P2 & Y2).
  unfold task_extends. split.
  { exists (m1 ++ m2). by rewrite U2, U1, <- app_assoc. }
  split.
  { intros i d Hd. destruct (D1 i d Hd) as (d' & Hd' & Hid & Hst).
    destruct (D2 i d' Hd') as (d'' & Hd'' & Hid' & Hst').
    exists d''. split; [done |]. split; [congruence | auto]. }
  repeat split; auto; congruence.
Qed.

Lemma run_op_extends op k : task_extends k (run_op op k).2.
Proof.
  destruct op as [u | now p m by_ atts | now h | i n d t | now i f]; simpl.
  - unfold task_extends. split; [exists []; by rewrite app_nil_r |].
    split; [intros j e He; exists e; auto |].
    repeat split; auto; try (intros _; by eexists).
  - unfold task_extends.
    rewrite updateProgress_progress, updateProgress_completedDate.
    split; [by eexists |].
    unfold Task.updateProgress. destruct (_ && _);
      (split; [intros j e He; exists e; auto |]);
      repeat split; auto; destruct (decide _); auto; try (intros _; by eexists).
  - unfold task_extends. split; [exists []; rewrite app_nil_r; by destruct h |].
    split; [intros j e He; exists e; split; [by destruct h | auto] |].
    destruct h; repeat split; auto; try (intros _; by eexists).
  - unfold task_extends. split; [exists []; by rewrite app_nil_r |].
    split.
    { intros j e He. exists e. split; [|auto]. simpl.
      by apply lookup_app_l_Some. }
    repeat split; auto.
  - destruct (list_find (fun d => Task.d_id d = i) (Task.deliverables k))
      as [[j d]|] eqn:E.
    + rewrite (completeDeliverable_returns now i f k j d E).
      pose proof E as (Hj & Hid & _)%list_find_Some.
      unfold task_extends. split; [exists []; by rewrite app_nil_r |].
      split; [|repeat split; auto].
      intros j' e He. simpl.
      destruct (decide (j' = j)) as [->|Hne].
      * rewrite list_lookup_insert_eq by (by eapply lookup_lt_Some).
        eexists. split; [reflexivity |]. split; [|done].
        simpl. congruence.
      * rewrite list_lookup_insert_ne by done. exists e. auto.
    + rewrite (completeDeliverable_missing now i f k E). apply task_extends_refl.
Qed.

Lemma run_op_updates op k :
  length (Task.updates (Task.progress (run_op op k).2))
  = (length (Task.updates (Task.progress k)) + progress_calls [op])%nat.
Proof.
  destruct op as [u | now p m by_ atts | now h | i n d t | now i f];
    unfold progress_calls; cbn [run_op snd].
  - simpl. lia.
  - rewrite updateProgress_progress. cbn [Task.updates].
    rewrite length_app. simpl. lia.
  - destruct h; simpl; lia.
  - simpl. lia.
  - unfold Task.completeDeliverable.
    destruct (list_find _ _) as [[j d]|]; simpl; lia.
Qed.

(** X6. Whatever sequence of [assignTo], [updateProgress], [complete],
    [addDeliverable] and [completeDeliverable] calls a task receives, each
    with arguments its save accepts (an update with a message and no
    attachments, a deliverable with a name and a listed type): the update
    log is the old log followed by one record per [updateProgress] call;
    every deliverable keeps its position and id and, once completed,
    stays completed; [completedDate] and [assignedTo], once set, stay
    set; base and bonus points, project and creator are unchanged. *)
Theorem task_calls_only_extend (ops : list TaskOp) (k : Task.t) :
  Forall op_admitted ops →
  task_extends k (run_ops ops k)
  ∧ length (Task.updates (Task.progress (run_ops ops k)))
    = (length (Task.updates (Task.progress k)) + progress_calls ops)%nat.
Proof.
  intros _. revert k. induction ops as [|op ops IH]; intros k.
  - split; [apply task_extends_refl | unfold progress_calls; simpl; lia].
  - change (run_ops (op :: ops) k) with (run_ops ops (run_op op k).2).
    destruct (IH (run_op op k).2) as [He Hl]. split.
    + eapply task_extends_trans; [apply run_op_extends | exact He].
    + rewrite Hl, run_op_updates. unfold progress_calls.
      rewrite !filter_cons, filter_nil. destruct (decide _); simpl; lia.
Qed.

Lemma task_calls_only_extend_witness :
  length (Task.updates (Task.progress (run_ops ex_ops ex_task_3))) = 1%nat
  ∧ Task.assignedBy (run_ops ex_ops ex_task_3) = Task.assignedBy ex_task_3.
Proof.
  destruct (task_calls_only_extend ex_ops ex_task_3) as [He Hl].
  - repeat constructor; try done; compute_done.
  - split; [rewrite Hl; reflexivity |].
    by destruct He as (_ & _ & _ & _ & _ & _ & _ & Hby).
Defined.


(** ** Badges over a history of calls *)

Lemma addPoints_badges_grow now a r pr u :
  ∃ more, User.badges (User.addPoints now a r pr u) = User.badges u ++ more.
Proof.
  unfold User.addPoints. rewrite checkAndAwardBadges_badges. by eexists.
Qed.

Lemma addPoints_holds_qualified now a r pr u n :
  qualifies (User.total (User.points (User.addPoints now a r pr u))) n →
  n ∈ (User.name <$> User.badges (User.addPoints now a r pr u)).
Proof.
  unfold User.addPoints. intros Hq.
  rewrite checkAndAwardBadges_points in Hq.
  rewrite checkAndAwardBadges_badges, fmap_app, elem_of_app.
  match goal with
  | |- ?n ∈ ?held ∨ _ => destruct (decide (n ∈ held)) as [|Hnot]; [by left |]
  end.
  right. apply awarded_name_iff. by split.
Qed.

Lemma addPoints_names_NoDup now a r pr u :
  NoDup (User.name <$> User.badges u) →
  NoDup (User.name <$> User.badges (User.addPoints now a r pr u)).
Proof.
  intros Hnd. unfold User.addPoints.
  rewrite checkAndAwardBadges_badges, fmap_app.
  apply NoDup_app. split; [exact Hnd |]. split; [|apply awarded_names_NoDup].
  intros n Hn Hadd. apply awarded_name_iff in Hadd as [_ Hnot]. by apply Hnot.
Qed.

Lemma addPoints_calls_app cs1 cs2 u :
  addPoints_calls (cs1 ++ cs2) u = addPoints_calls cs2 (addPoints_calls cs1 u).
Proof. apply fold_left_app. Qed.

Lemma addPoints_calls_badges_grow cs : ∀ u,
  ∃ more, User.badges (addPoints_calls cs u) = User.badges u ++ more.
Proof.
  induction cs as [|c cs IH]; intros u; [exists []; by rewrite app_nil_r |].
  change (addPoints_calls (c :: cs) u)
    with (addPoints_calls cs (addPoints_call u c)).
  destruct (IH (addPoints_call u c)) as [m2 ->].
  destruct (addPoints_badges_grow (call_now c) (call_amount c) (call_reason c)
              (call_project c) u) as [m1 E].
  unfold addPoints_call. rewrite E. exists (m1 ++ m2). by rewrite app_assoc.
Qed.

Lemma addPoints_calls_names_NoDup cs : ∀ u,
  NoDup (User.name <$> User.badges u) →
  NoDup (User.name <$> User.badges (addPoints_calls cs u)).
Proof.
  induction cs as [|c cs IH]; intros u Hnd; [exact Hnd |].
  change (addPoints_calls (c :: cs) u)
    with (addPoints_calls cs (addPoints_call u c)).
  apply IH. by apply addPoints_names_NoDup.
Qed.

(** X8. Over any history of [addPoints] calls the badges only grow: the
    badge list after more calls is the earlier list followed by new
    badges, distinct names stay distinct, and a badge whose threshold the
    total had reached at the end of some call is held ever after, also
    when later calls with negative amounts take the total below the
    threshold again. *)
Theorem badges_persist (u : User.t) (cs1 : list AddPointsCall)
    (c : AddPointsCall) (cs2 : list AddPointsCall) :
  let u1 := addPoints_calls (cs1 ++ [c]) u in
  let u2 := addPoints_calls ((cs1 ++ [c]) ++ cs2) u in
  (∃ more, User.badges u1 = User.badges u ++ more)
  ∧ (∃ more, User.badges u2 = User.badges u1 ++ more)
  ∧ (∀ n, qualifies (User.total (User.points u1)) n →
          n ∈ (User.name <$> User.badges u2))
  ∧ (NoDup (User.name <$> User.badges u) →
     NoDup (User.name <$> User.badges u2)).
Proof.
  intros u1 u2. subst u1 u2.
  split; [apply addPoints_calls_badges_grow |].
  rewrite (addPoints_calls_app (cs1 ++ [c]) cs2).
  split; [apply addPoints_calls_badges_grow |].
  split; [|intros Hnd; by do 2 apply addPoints_calls_names_NoDup].
  intros n Hq.
  destruct (addPoints_calls_badges_grow cs2 (addPoints_calls (cs1 ++ [c]) u))
    as [more ->].
  rewrite fmap_app, elem_of_app. left.
  rewrite addPoints_calls_app in Hq |- *.
  by apply addPoints_holds_qualified.
Qed.

(** X9. After a call of [addPoints] the display tier [currentBadge] is
    Gold from 2000 points, Silver from 1000, Bronze from 500 and Newcomer
    below; a user shown as Gold, Silver or Bronze holds the Contributor
    badge of that name. The tiers stop at Gold: from 5000 points the user
    holds 'Platinum Contributor' and is still shown as Gold. *)
Theorem currentBadge_after_addPoints (now : Date) (a : Z) (r : string)
    (pr : option ObjectId) (u : User.t) :
  let u' := User.addPoints now a r pr u in
  let T := User.total (User.points u') in
  let tier := (User.currentBadge u').1 in
  let names := User.name <$> User.badges u' in
  (tier = "Gold"%string ↔ 2000 ≤ T)
  ∧ (tier = "Silver"%string ↔ 1000 ≤ T < 2000)
  ∧ (tier = "Bronze"%string ↔ 500 ≤ T < 1000)
  ∧ (tier = "Newcomer"%string ↔ T < 500)
  ∧ (tier = "Gold"%string → "Gold Contributor"%string ∈ names)
  ∧ (tier = "Silver"%string → "Silver Contributor"%string ∈ names)
  ∧ (tier = "Bronze"%string → "Bronze Contributor"%string ∈ names)
  ∧ (5000 ≤ T → tier = "Gold"%string ∧ "Platinum Contributor"%string ∈ names).
Proof.
  intros u' T tier names.
  assert (Hheld : ∀ n, qualifies T n → n ∈ names)
    by (intros n; apply addPoints_holds_qualified).
  assert (Htier :
    (2000 ≤ T ∧ tier = "Gold"%string)
    ∨ (1000 ≤ T < 2000 ∧ tier = "Silver"%string)
    ∨ (500 ≤ T < 1000 ∧ tier = "Bronze"%string)
    ∨ (T < 500 ∧ tier = "Newcomer"%string)).
  { subst tier. unfold User.currentBadge. fold T.
    destruct (T >=? 2000) eqn:E1;
      [left; split; [by apply geb_true_iff in E1; lia | done] |].
    apply geb_false_iff in E1.
    destruct (T >=? 1000) eqn:E2;
      [right; left; split; [apply geb_true_iff in E2; lia | done] |].
    apply geb_false_iff in E2.
    destruct (T >=? 500) eqn:E3;
      [do 2 right; left; split; [apply geb_true_iff in E3; lia | done] |].
    apply geb_false_iff in E3.
    do 3 right. split; [lia | done]. }
  assert (Hcase : ∀ (name : string) (P : Prop),
            (2000 ≤ T → name = "Gold"%string → P) →
            (1000 ≤ T < 2000 → name = "Silver"%string → P) →
            (500 ≤ T < 1000 → name = "Bronze"%string → P) →
            (T < 500 → name = "Newcomer"%string → P) →
            tier = name → P).
  { intros name P HG HS HB HN <-.
    destruct Htier as [[H1 H2]|[[H1 H2]|[[H1 H2]|[H1 H2]]]]; eauto. }
  assert (Htotal : tier = "Gold"%string ∨ tier = "Silver"%string
                   ∨ tier = "Bronze"%string ∨ tier = "Newcomer"%string)
    by (destruct Htier as [[_ H]|[[_ H]|[[_ H]|[_ H]]]]; auto).
  split; [split; [apply Hcase; (done || lia) |] |].
  { intros HT. destruct Htier as [[_ H]|[[H _]|[[H _]|[H _]]]]; [done | lia..]. }
  split; [split; [apply Hcase; (done || lia) |] |].
  { intros HT. destruct Htier as [[H _]|[[_ H]|[[H _]|[H _]]]]; [lia | done | lia..]. }
  split; [split; [apply Hcase; (done || lia) |] |].
  { intros HT. destruct Htier as [[H _]|[[H _]|[[_ H]|[H _]]]]; [lia.. | done | lia]. }
  split; [split; [apply Hcase; (done || lia) |] |].
  { intros HT. destruct Htier as [[H _]|[[H _]|[[H _]|[_ H]]]]; [lia.. | done]. }
  split.
  { apply Hcase; try done. intros HT _. apply Hheld. unfold qualifies.
    do 3 right. left. by split. }
  split.
  { apply Hcase; try done. intros HT _. apply Hheld. unfold qualifies.
    do 2 right. left. split; [done | lia]. }
  split.
  { apply Hcase; try done. intros HT _. apply Hheld. unfold qualifies.
    right. left. split; [done | lia]. }
  intros HT. split.
  - destruct Htier as [[_ H]|[[H _]|[[H _]|[H _]]]]; [done | lia..].
  - apply Hheld. unfold qualifies. do 4 right. by split.
Qed.

(** ** Rank *)

Section FilterSize.
Context {A : Type} (P Q : N * A → Prop)
  `{!∀ x, Decision (P x)} `{!∀ x, Decision (Q x)}.

Lemma filter_size_le (c : gmap N A) :
  (∀ j y, c !! j = Some y → P (j, y) → Q (j, y)) →
  (size (filter P c) ≤ size (filter Q c))%nat.
Proof.
  intros HPQ. apply map_subseteq_size. by apply map_filter_subseteq_ext.
Qed.

Lemma filter_size_lt (c : gmap N A) i x :
  c !! i = Some x → Q (i, x) → ¬ P (i, x) →
  (∀ j y, c !! j = Some y → P (j, y) → Q (j, y)) →
  (size (filter P c) < size (filter Q c))%nat.
Proof.
  intros Hi HQ HnP HPQ. apply map_subset_size. split.
  - by apply map_filter_subseteq_ext.
  - intros Hsub.
    assert (Hin : filter Q c !! i = Some x)
      by (by apply map_lookup_filter_Some).
    pose proof (lookup_weaken _ _ _ _ Hin Hsub) as Hin'.
    apply map_lookup_filter_Some in Hin' as [_ HP]. by apply HnP.
Qed.
End FilterSize.

Lemma active_above_mono m x y c :
  x ≤ y → active_above m y c ≤ active_above m x c.
Proof.
  intros Hxy. unfold active_above. apply Nat2Z.inj_le.
  apply (filter_size_le (fun kv => User.isActive kv.2 = true ∧ m kv.2 > y)
           (fun kv => User.isActive kv.2 = true ∧ m kv.2 > x)).
  simpl. intros j u _ [Ha Hm]. split; [exact Ha | lia].
Qed.

Lemma active_above_strict m x c i u :
  c !! i = Some u → User.isActive u = true → x < m u →
  active_above m (m u) c < active_above m x c.
Proof.
  intros Hi Ha Hx. unfold active_above. apply Nat2Z.inj_lt.
  apply (filter_size_lt (fun kv => User.isActive kv.2 = true ∧ m kv.2 > m u)
           (fun kv => User.isActive kv.2 = true ∧ m kv.2 > x) c i u Hi).
  - simpl. split; [exact Ha | lia].
  - simpl. intros [_ H]. lia.
  - simpl. intros j v _ [Hav Hm]. split; [exact Hav | lia].
Qed.

(** X10. An active user with a positive metric is ranked within the
    total: [1 <= rank <= total], so the handler's
    [total - rank + 1] is at least 1 and at most [total]. *)
Theorem userRank_within_total (type : string) (m : User.t → Z)
    (userId : ObjectId) (user : User.t) (db : Routes.DB) :
  metric_of type = Some m →
  Routes.users db !! userId = Some user →
  User.isActive user = true →
  m user > 0 →
  ∃ r,
    Routes.userRank userId (Some type) db = (Routes.json 200 true "", Some r)
    ∧ 1 ≤ Routes.rank r ≤ Routes.total r
    ∧ 1 ≤ Routes.total r - Routes.rank r + 1 ≤ Routes.total r.
Proof.
  intros Hm Hu Ha Hpos.
  destruct (userRank_counts type m userId user db Hm Hu)
    as (r & H & Hr & Ht & _).
  exists r. split; [exact H |].
  pose proof (active_above_strict m 0 (Routes.users db) userId user Hu Ha
                ltac:(lia)) as Hlt.
  assert (0 ≤ active_above m (m user) (Routes.users db))
    by (unfold active_above; lia).
  lia.
Qed.

Lemma userRank_within_total_witness :
  ∃ r,
    Routes.userRank 4%N (Some "points"%string) ex_board
    = (Routes.json 200 true "", Some r)
    ∧ 1 ≤ Routes.rank r ≤ Routes.total r.
Proof.
  destruct (userRank_within_total "points"
              (fun u => User.total (User.points u)) 4%N
              (User.addPoints 0 100 "Task completed" None User.fresh) ex_board)
    as (r & H & Hr & _); [reflexivity | reflexivity | reflexivity | done |].
  exists r. by split.
Defined.

(** X11. The rank follows the metric: of two users, the one with the
    larger or equal metric has the smaller or equal rank, users with
    equal metrics share a rank, and an active user with a strictly larger
    metric has a strictly smaller rank. *)
Theorem userRank_follows_metric (type : string) (m : User.t → Z)
    (ia ib : ObjectId) (a b : User.t) (db : Routes.DB) :
  metric_of type = Some m →
  Routes.users db !! ia = Some a →
  Routes.users db !! ib = Some b →
  ∃ ra rb,
    Routes.userRank ia (Some type) db = (Routes.json 200 true "", Some ra)
    ∧ Routes.userRank ib (Some type) db = (Routes.json 200 true "", Some rb)
    ∧ (m a = m b → Routes.rank ra = Routes.rank rb)
    ∧ (m a >= m b → Routes.rank ra ≤ Routes.rank rb)
    ∧ (m a > m b → User.isActive a = true → Routes.rank ra < Routes.rank rb).
Proof.
  intros Hm Ha Hb.
  destruct (userRank_counts type m ia a db Hm Ha) as (ra & HA & Hra & _).
  destruct (userRank_counts type m ib b db Hm Hb) as (rb & HB & Hrb & _).
  exists ra, rb. split; [exact HA |]. split; [exact HB |].
  rewrite Hra, Hrb. split; [by intros -> |]. split.
  - intros Hge.
    pose proof (active_above_mono m (m b) (m a) (Routes.users db)). lia.
  - intros Hgt Hact.
    pose proof (active_above_strict m (m b) (Routes.users db) ia a Ha Hact). lia.
Qed.

Lemma userRank_follows_metric_witness :
  ∃ ra rb,
    Routes.userRank 1%N (Some "points"%string) ex_board
    = (Routes.json 200 true "", Some ra)
    ∧ Routes.userRank 4%N (Some "points"%string) ex_board
      = (Routes.json 200 true "", Some rb)
    ∧ Routes.rank ra < Routes.rank rb.
Proof.
  destruct (userRank_follows_metric "points"
              (fun u => User.total (User.points u)) 1%N 4%N
              (User.addPoints 0 500 "Task completed" None User.fresh)
              (User.addPoints 0 100 "Task completed" None User.fresh) ex_board)
    as (ra & rb & HA & HB & _ & _ & Hlt); [reflexivity.. |].
  exists ra, rb. split; [exact HA |]. split; [exact HB |].
  apply Hlt; [simpl; lia | reflexivity].
Defined.

(** X12. The rank query for a user that does not exist answers 404 with no
    data; for a [type] other than 'points', 'projects' and 'hours' it
    answers with success and rank 0, total 0 and percentile 0. *)
Theorem userRank_edges (userId : ObjectId) (db : Routes.DB) :
  (Routes.users db !! userId = None →
   ∀ type, Routes.userRank userId type db
           = (Routes.json 404 false "User not found", None))
  ∧ (∀ type, metric_of type = None →
       is_Some (Routes.users db !! userId) →
       ∃ r, Routes.userRank userId (Some type) db
            = (Routes.json 200 true "", Some r)
            ∧ Routes.rank r = 0 ∧ Routes.total r = 0
            ∧ JS.to_Z (Routes.percentile r) = Some 0).
Proof.
  split.
  - intros Hnone type. unfold Routes.userRank. by rewrite Hnone.
  - intros type Hm [user Hu]. unfold Routes.userRank, metric_of in *.
    rewrite Hu. change (default "points"%string (Some type)) with type.
    destruct (String.eqb type "points"); [discriminate |].
    destruct (String.eqb type "projects"); [discriminate |].
    destruct (String.eqb type "hours"); [discriminate |].
    eexists. split; [reflexivity |]. by repeat split.
Qed.

(** ** Volunteer status handler *)





(** ** NGO reviews and followers *)

Section FilterKey.
Context {A : Type} (key : A → N).

Lemma filter_other_idem (u : N) (l : list A) :
  filter (fun x => key x ≠ u) (filter (fun x => key x ≠ u) l)
  = filter (fun x => key x ≠ u) l.
Proof.
  induction l as [|x l IH]; [done |].
  rewrite (filter_cons _ x l). destruct (decide (key x ≠ u)) as [Hx|Hx]; [|exact IH].
  by rewrite filter_cons, decide_True, IH.
Qed.

Lemma filter_other_none (u : N) (l : list A) :
  u ∉ (key <$> l) → filter (fun x => key x ≠ u) l = l.
Proof.
  induction l as [|x l IH]; intros Hnot; [done |].
  rewrite fmap_cons, not_elem_of_cons in Hnot. destruct Hnot as [Hx Hl].
  rewrite filter_cons, decide_True by done. by rewrite IH.
Qed.


Lemma not_elem_of_filter_other (u : N) (l : list A) :
  u ∉ (key <$> filter (fun x => key x ≠ u) l).
Proof.
  intros (x & -> & Hx)%list_elem_of_fmap.
  by apply list_elem_of_filter in Hx as [Hne _].
Qed.


(** A key that occurs once is the one element the filter drops. *)
Lemma length_filter_other (u : N) (l : list A) :
  NoDup (key <$> l) → u ∈ (key <$> l) →
  S (length (filter (fun x => key x ≠ u) l)) = length l.
Proof.
  induction l as [|x l IH]; intros Hnd Hin; [by apply elem_of_nil in Hin |].
  rewrite fmap_cons in Hnd, Hin. apply NoDup_cons in Hnd as [Hx Hnd].
  rewrite filter_cons. destruct (decide (key x ≠ u)) as [Hne|Heq].
  - apply elem_of_cons in Hin as [->|Hin]; [done |].
    simpl. by rewrite IH.
  - assert (key x = u) as <- by (destruct (decide (key x = u)); [done | tauto]).
    by rewrite filter_other_none.
Qed.
End FilterKey.




Lemma set_followers_same n : NGO.set_followers (NGO.followers n) n = n.
Proof. by destruct n. Qed.

Lemma follow_verified now actor ngoId ngos ngo :
  ngos !! ngoId = Some ngo →
  NGO.status (NGO.verification ngo) = NGO.verified →
  NgoRoutes.follow now actor ngoId ngos
  = if decide (Routes.id actor ∈ (NGO.f_user <$> NGO.followers ngo))
    then
      let fs := filter (fun f => NGO.f_user f ≠ Routes.id actor)
                  (NGO.followers ngo) in
      ({| NgoRoutes.reply := Routes.json 200 true "Unfollowed NGO successfully";
          NgoRoutes.following := Some false;
          NgoRoutes.followerCount := Some (Z.of_nat (length fs)) |},
       <[ngoId := NGO.set_followers fs ngo]> ngos)
    else
      let fs := NGO.followers ngo
                  ++ [ {| NGO.f_user := Routes.id actor;
                          NGO.followDate := now |} ] in
      ({| NgoRoutes.reply := Routes.json 200 true "Following NGO successfully";
          NgoRoutes.following := Some true;
          NgoRoutes.followerCount := Some (Z.of_nat (length fs)) |},
       <[ngoId := NGO.set_followers fs ngo]> ngos).
Proof.
  intros Hn Hv. unfold NgoRoutes.follow. rewrite Hn, Hv.
  rewrite bool_decide_eq_true_2 by done. cbn [negb].
  destruct (list_find _ _) as [[i f]|] eqn:E.
  - rewrite decide_True; [reflexivity |].
    apply list_find_Some in E as (Hi & Hf & _).
    apply list_elem_of_fmap. exists f. split; [done |].
    by eapply list_elem_of_lookup_2.
  - rewrite decide_False; [reflexivity |].
    rewrite list_find_None, Forall_forall in E.
    intros (f & Hf & Hin)%list_elem_of_fmap. by apply (E f).
Qed.

(** X15. The follow handler on a verified NGO is a toggle: afterwards the
    caller follows exactly when it did not before, the other followers
    are as they were, in order, and the count it answers is the stored
    [followerCount]. Following and then unfollowing restores the NGO
    collection as it was. When no user is listed twice the count moves by
    exactly one. *)
Theorem follow_is_a_toggle (now : Date) (actor : Routes.Actor)
    (ngoId : ObjectId) (ngos : gmap N NGO.t) (ngo : NGO.t) :
  ngos !! ngoId = Some ngo →
  NGO.status (NGO.verification ngo) = NGO.verified →
  let uid := Routes.id actor in
  ∃ r ngo',
    NgoRoutes.follow now actor ngoId ngos = (r, <[ngoId := ngo']> ngos)
    ∧ Routes.code (NgoRoutes.reply r) = 200%nat
    ∧ (uid ∈ (NGO.f_user <$> NGO.followers ngo')
       ↔ uid ∉ (NGO.f_user <$> NGO.followers ngo))
    ∧ NgoRoutes.following r
      = Some (bool_decide (uid ∈ (NGO.f_user <$> NGO.followers ngo')))
    ∧ NgoRoutes.followerCount r = Some (NGO.followerCount ngo')
    ∧ filter (fun f => NGO.f_user f ≠ uid) (NGO.followers ngo')
      = filter (fun f => NGO.f_user f ≠ uid) (NGO.followers ngo)
    ∧ (uid ∉ (NGO.f_user <$> NGO.followers ngo) →
       ∀ now2,
         (NgoRoutes.follow now2 actor ngoId (<[ngoId := ngo']> ngos)).2 = ngos)
    ∧ (NoDup (NGO.f_user <$> NGO.followers ngo) →
       NGO.followerCount ngo'
       = if decide (uid ∈ (NGO.f_user <$> NGO.followers ngo))
         then NGO.followerCount ngo - 1
         else NGO.followerCount ngo + 1).
Proof.
  intros Hn Hv uid.
  rewrite (follow_verified now actor ngoId ngos ngo Hn Hv). fold uid.
  destruct (decide (uid ∈ (NGO.f_user <$> NGO.followers ngo))) as [Hin|Hnot].
  - eexists _, _. split; [reflexivity |]. split; [reflexivity |].
    cbn [NGO.followers NGO.set_followers NgoRoutes.following
         NgoRoutes.followerCount].
    pose proof (not_elem_of_filter_other NGO.f_user uid (NGO.followers ngo)) as Hgone.
    split; [tauto |].
    split; [by rewrite bool_decide_eq_false_2 |].
    split; [reflexivity |].
    split; [apply (filter_other_idem NGO.f_user) |].
    split; [tauto |].
    intros Hnd. unfold NGO.followerCount.
    cbn [NGO.followers NGO.set_followers].
    pose proof (length_filter_other NGO.f_user uid _ Hnd Hin). lia.
  - eexists _, _. split; [reflexivity |]. split; [reflexivity |].
    cbn [NGO.followers NGO.set_followers NgoRoutes.following
         NgoRoutes.followerCount].
    assert (Hnow : uid ∈ (NGO.f_user
                            <$> NGO.followers ngo
                                  ++ [ {| NGO.f_user := uid;
                                          NGO.followDate := now |} ])).
    { rewrite fmap_app, elem_of_app. right. by apply list_elem_of_singleton. }
    split; [tauto |].
    split; [by rewrite bool_decide_eq_true_2 |].
    split; [reflexivity |].
    assert (Hfilter : filter (fun f => NGO.f_user f ≠ uid)
                        (NGO.followers ngo
                           ++ [ {| NGO.f_user := uid; NGO.followDate := now |} ])
                      = NGO.followers ngo).
    { rewrite filter_app, (filter_other_none NGO.f_user) by exact Hnot.
      rewrite filter_cons, decide_False by (simpl; tauto).
      by rewrite app_nil_r. }
    split; [by rewrite Hfilter, (filter_other_none NGO.f_user) |].
    split.
    + intros _ now2.
      rewrite (follow_verified now2 actor ngoId _ _ (lookup_insert_eq _ _ _))
        by exact Hv.
      fold uid. cbn [NGO.followers NGO.set_followers].
      rewrite decide_True by exact Hnow. cbn [snd].
      rewrite Hfilter, insert_insert_eq.
      replace (NGO.set_followers (NGO.followers ngo)
                 (NGO.set_followers
                    (NGO.followers ngo
                       ++ [ {| NGO.f_user := uid; NGO.followDate := now |} ])
                    ngo)) with ngo by (by destruct ngo).
      by apply insert_id.
    + intros _. unfold NGO.followerCount.
      cbn [NGO.followers NGO.set_followers]. rewrite length_app. simpl. lia.
Qed.

Lemma follow_is_a_toggle_witness :
  let ngos : gmap N NGO.t := {[ 3%N := ex_ngo ]} in
  (NgoRoutes.follow 21 (ex_volunteer 8%N) 3%N
     (NgoRoutes.follow 20 (ex_volunteer 8%N) 3%N ngos).2).2 = ngos.
Proof.
  intros ngos.
  destruct (follow_is_a_toggle 20 (ex_volunteer 8%N) 3%N ngos ex_ngo)
    as (r & ngo' & H & _ & _ & _ & _ & _ & Hback & _);
    [reflexivity | reflexivity |].
  rewrite H. apply Hback. compute_done.
Defined.

(** ** Admin handlers *)

Lemma requireAdmin_admin actor :
  Routes.role actor = Routes.role_admin → Admin.requireAdmin actor = None.
Proof. intros H. unfold Admin.requireAdmin. by rewrite bool_decide_eq_true_2. Qed.

(** X16. The verification handler, called by an admin on an NGO that is
    found: a [rejectionReason] of more than 1000 characters once trimmed
    is answered 400 with nothing stored. With a reason that is absent or
    within that length the handler sets the status it is asked for from
    whatever status the NGO had, and stamps [verifiedBy] and
    [verifiedDate] on a rejection as on a verification; followers and
    rating are not touched; a rejection stores the trimmed reason when it
    is not empty, and a verification does not clear an earlier
    [rejectionReason]. What it sets gates following: after a verification
    every follow request is answered 200, after a rejection every follow
    request is answered 400 and changes nothing, the followers the NGO
    had staying listed. *)
Theorem verification_gates_following (now : Date) (actor : Routes.Actor)
    (ngoId : ObjectId) (verified : bool) (reason : option string)
    (ngos : gmap N NGO.t) (ngo : NGO.t) :
  Routes.role actor = Routes.role_admin →
  ngos !! ngoId = Some ngo →
  (∀ r, reason = Some r → JS.is_ascii r = true) →
  (¬ reason_admitted reason →
   Admin.verifyNGO now actor ngoId verified reason ngos
   = (Routes.json 400 false "Validation errors", ngos))
  ∧ (reason_admitted reason →
     ∃ r ngo',
       Admin.verifyNGO now actor ngoId verified reason ngos
       = (r, <[ngoId := ngo']> ngos)
       ∧ Routes.code r = 200%nat
       ∧ NGO.status (NGO.verification ngo')
         = (if verified then NGO.verified else NGO.rejected)
       ∧ NGO.verifiedBy (NGO.verification ngo') = Some (Routes.id actor)
       ∧ NGO.verifiedDate (NGO.verification ngo') = Some now
       ∧ NGO.followers ngo' = NGO.followers ngo
       ∧ NGO.rating ngo' = NGO.rating ngo
       ∧ NGO.rejectionReason (NGO.verification ngo')
         = match verified, Validator.trim <$> reason with
           | false, Some r =>
               if bool_decide (r = ""%string)
               then NGO.rejectionReason (NGO.verification ngo)
               else Some r
           | _, _ => NGO.rejectionReason (NGO.verification ngo)
           end
       ∧ ∀ now2 follower,
           if verified
           then Routes.code
                  (NgoRoutes.reply
                     (NgoRoutes.follow now2 follower ngoId
                        (<[ngoId := ngo']> ngos)).1) = 200%nat
           else NgoRoutes.follow now2 follower ngoId (<[ngoId := ngo']> ngos)
                = ({| NgoRoutes.reply :=
                        Routes.json 400 false "Cannot follow unverified NGO";
                      NgoRoutes.following := None;
                      NgoRoutes.followerCount := None |},
                   <[ngoId := ngo']> ngos)).
Proof.
  intros Hadmin Hn Hascii. unfold Admin.verifyNGO.
  rewrite (requireAdmin_admin _ Hadmin). split.
  { intros Hlong. destruct reason as [r|]; [|by destruct Hlong].
    cbn [fmap option_fmap option_map from_option].
    unfold Validator.isLength.
    replace (String.length (Validator.trim r) <=? 1000)%nat with false;
      [by rewrite andb_false_r |].
    symmetry. apply Nat.leb_gt.
    destruct (le_lt_dec (String.length (Validator.trim r)) 1000) as [Hle|Hgt];
      [|exact Hgt].
    exfalso. apply Hlong. split; [by apply Hascii | exact Hle]. }
  intros Hok.
  assert (Hlen : from_option (Validator.isLength 0 1000) true
                   (Validator.trim <$> reason) = true).
  { destruct reason as [r|]; [|reflexivity]. destruct Hok as [_ Hle].
    cbn [fmap option_fmap option_map from_option].
    unfold Validator.isLength. apply andb_true_iff.
    split; apply Nat.leb_le; lia. }
  rewrite Hlen, Hn. cbn [negb].
  eexists _, _. split; [reflexivity |].
  split; [by destruct verified |].
  split; [reflexivity |]. split; [reflexivity |]. split; [reflexivity |].
  split; [reflexivity |]. split; [reflexivity |].
  split; [reflexivity |].
  intros now2 follower. destruct verified.
  - erewrite follow_verified; [|apply lookup_insert_eq | reflexivity].
    by destruct (decide _).
  - unfold NgoRoutes.follow. rewrite lookup_insert_eq. reflexivity.
Qed.

Lemma verification_gates_following_witness :
  let ngos : gmap N NGO.t := {[ 3%N := ex_ngo ]} in
  let ngos' :=
    (Admin.verifyNGO 30 ex_admin 3%N false (Some " papers "%string) ngos).2 in
  (NgoRoutes.follow 31 (ex_volunteer 8%N) 3%N ngos').2 = ngos'
  ∧ ∃ ngo', ngos' !! 3%N = Some ngo'
            ∧ NGO.rejectionReason (NGO.verification ngo')
              = Some "papers"%string.
Proof.
  intros ngos ngos'.
  destruct (verification_gates_following 30 ex_admin 3%N false
              (Some " papers "%string) ngos ex_ngo) as [_ Hok];
    [reflexivity | reflexivity | by intros r [= <-] |].
  destruct Hok as (r & ngo' & H & _ & _ & _ & _ & _ & _ & Hreason & Hgate);
    [split; [reflexivity | vm_compute; lia] |].
  subst ngos'. rewrite H. cbn [snd].
  specialize (Hgate 31 (ex_volunteer 8%N)). cbn beta iota in Hgate.
  split; [by rewrite Hgate |].
  exists ngo'. split; [apply lookup_insert_eq | exact Hreason].
Defined.

Lemma metric_of_isActive type m :
  metric_of type = Some m → ∀ b u, m (with_isActive b u) = m u.
Proof.
  unfold metric_of.
  destruct (String.eqb type "points"); [by intros [= <-] |].
  destruct (String.eqb type "projects"); [by intros [= <-] |].
  destruct (String.eqb type "hours"); [by intros [= <-] | discriminate].
Qed.

(** Replacing one document moves the count by the difference of the old
    and the new document. *)
Lemma active_above_insert m x (c : gmap N User.t) i u u' :
  c !! i = Some u →
  active_above m x (<[i := u']> c)
    + Z.of_nat (indicator (User.isActive u = true ∧ m u > x))
  = active_above m x c
    + Z.of_nat (indicator (User.isActive u' = true ∧ m u' > x)).
Proof.
  intros Hi. unfold active_above, indicator.
  set (P := fun kv : N * User.t => User.isActive kv.2 = true ∧ m kv.2 > x).
  rewrite (map_filter_insert P).
  assert (Hin : filter P c !! i
                = if decide (P (i, u)) then Some u else None).
  { destruct (decide (P (i, u))) as [HP|HP].
    - by apply map_lookup_filter_Some.
    - apply map_lookup_filter_None. right. intros y Hy. congruence. }
  change (User.isActive u = true ∧ m u > x) with (P (i, u)).
  change (User.isActive u' = true ∧ m u' > x) with (P (i, u')).
  destruct (decide (P (i, u'))) as [HP'|HP'].
  - rewrite map_size_insert, Hin.
    destruct (decide (P (i, u))); simpl; lia.
  - rewrite map_filter_delete, map_size_delete, Hin.
    destruct (decide (P (i, u))) as [HP|HP]; simpl; [|lia].
    assert (size (filter P c) ≠ 0%nat).
    { apply (map_size_ne_0_lookup_2 _ i). rewrite Hin. by eexists. }
    lia.
Qed.

(** X17. Deactivating a user through the admin handler takes the user out
    of every rank computation: the rank of any other user falls by one
    exactly when the deactivated user was active and strictly above, the
    total falls by one exactly when the deactivated user was active with
    a positive metric. The deactivated user is still ranked, at the rank
    it had. Setting the status a user already has changes nothing. *)
Theorem deactivation_and_rank (actor : Routes.Actor) (type : string)
    (m : User.t → Z) (a b : ObjectId) (ua ub : User.t) (db : Routes.DB) :
  Routes.role actor = Routes.role_admin →
  metric_of type = Some m →
  Routes.users db !! a = Some ua →
  Routes.users db !! b = Some ub →
  a ≠ b →
  ∃ db' rb rb' ra ra',
    Admin.setUserStatus actor a false db
    = (Routes.json 200 true "User deactivated successfully", db')
    ∧ Routes.userRank b (Some type) db = (Routes.json 200 true "", Some rb)
    ∧ Routes.userRank b (Some type) db' = (Routes.json 200 true "", Some rb')
    ∧ Routes.userRank a (Some type) db = (Routes.json 200 true "", Some ra)
    ∧ Routes.userRank a (Some type) db' = (Routes.json 200 true "", Some ra')
    ∧ Routes.rank rb'
      = Routes.rank rb
        - Z.of_nat (indicator (User.isActive ua = true ∧ m ua > m ub))
    ∧ Routes.total rb'
      = Routes.total rb
        - Z.of_nat (indicator (User.isActive ua = true ∧ m ua > 0))
    ∧ Routes.rank ra' = Routes.rank ra
    ∧ (Admin.setUserStatus actor a (User.isActive ua) db).2 = db.
Proof.
  intros Hadmin Hm Ha Hb Hab.
  unfold Admin.setUserStatus. rewrite (requireAdmin_admin _ Hadmin), Ha.
  fold (with_isActive false ua). fold (with_isActive (User.isActive ua) ua).
  set (db' := Routes.set_users
                (<[a := with_isActive false ua]> (Routes.users db)) db).
  assert (Hb' : Routes.users db' !! b = Some ub)
    by (subst db'; simpl; by rewrite lookup_insert_ne).
  assert (Ha' : Routes.users db' !! a = Some (with_isActive false ua))
    by (subst db'; simpl; by rewrite lookup_insert_eq).
  destruct (userRank_counts type m b ub db Hm Hb) as (rb & HB & Hrb & Htb & _).
  destruct (userRank_counts type m b ub db' Hm Hb') as (rb' & HB' & Hrb' & Htb' & _).
  destruct (userRank_counts type m a ua db Hm Ha) as (ra & HA & Hra & _).
  destruct (userRank_counts type m a _ db' Hm Ha') as (ra' & HA' & Hra' & _).
  exists db', rb, rb', ra, ra'.
  split; [reflexivity |]. split; [exact HB |]. split; [exact HB' |].
  split; [exact HA |]. split; [exact HA' |].
  pose proof (metric_of_isActive type m Hm false ua) as Hmetric.
  assert (Hoff : ∀ x, indicator (User.isActive (with_isActive false ua) = true
                                 ∧ m (with_isActive false ua) > x) = 0%nat).
  { intros x. unfold indicator. rewrite decide_False; [done |].
    simpl. intros [? _]. discriminate. }
  assert (Hcount : ∀ x,
            active_above m x (Routes.users db')
            = active_above m x (Routes.users db)
              - Z.of_nat (indicator (User.isActive ua = true ∧ m ua > x))).
  { intros x. subst db'. simpl.
    pose proof (active_above_insert m x (Routes.users db) a ua
                  (with_isActive false ua) Ha) as H.
    rewrite Hoff in H. lia. }
  split; [rewrite Hrb', Hrb, Hcount; lia |].
  split; [rewrite Htb', Htb, Hcount; lia |].
  split.
  - rewrite Hra', Hra, Hmetric, Hcount.
    unfold indicator. rewrite decide_False by lia. simpl. lia.
  - cbn [snd]. destruct db as [us ts ps]. simpl in *.
    unfold Routes.set_users. simpl. f_equal.
    replace (with_isActive (User.isActive ua) ua) with ua by (by destruct ua).
    by apply insert_id.
Qed.

Lemma deactivation_and_rank_witness :
  ∃ rb',
    Routes.userRank 4%N (Some "points"%string)
      (Admin.setUserStatus ex_admin 1%N false ex_board).2
    = (Routes.json 200 true "", Some rb')
    ∧ Routes.rank rb' = 3.
Proof.
  destruct (deactivation_and_rank ex_admin "points"
              (fun u => User.total (User.points u)) 1%N 4%N
              (User.addPoints 0 500 "Task completed" None User.fresh)
              (User.addPoints 0 100 "Task completed" None User.fresh) ex_board)
    as (db' & rb & rb' & ra & ra' & H & HB & HB' & _ & _ & Hr & _);
    [reflexivity.. | done |].
  exists rb'. rewrite H. split; [exact HB' |].
  rewrite Hr.
  assert (Hrb : Routes.rank rb = 4).
  { assert (E : Some rb = (Routes.userRank 4%N (Some "points"%string) ex_board).2)
      by (by rewrite HB).
    vm_compute in E. by injection E as ->. }
  rewrite Hrb. reflexivity.
Defined.

(** ** The achievements handler *)





(** ** The progress handler *)





(** ** Donations *)

Lemma donated_app l k : donated (l ++ k) = donated l + donated k.
Proof. unfold donated. by rewrite fmap_app, sumZ_app. Qed.

Lemma save_roster_ok p : roster_ok p → roster_ok (Project.save p).
Proof.
  unfold roster_ok. intros H. rewrite save_volunteers, save_current.
  by destruct (Project.modified_volunteers p).
Qed.

Lemma addDonation_calls_funding (calls : list DonationCall) (p : Funding.Doc) :
  let p' := fold_left addDonation_call calls p in
  Funding.donations (Funding.funding p')
  = Funding.donations (Funding.funding p) ++ (donation_of <$> calls)
  ∧ Funding.raised (Funding.funding p')
    = Funding.raised (Funding.funding p) + sumZ (dc_amount <$> calls)
  ∧ Funding.required (Funding.funding p')
    = Funding.required (Funding.funding p)
  ∧ (Funding.raised (Funding.funding p)
     = donated (Funding.donations (Funding.funding p)) →
     Funding.raised (Funding.funding p')
     = donated (Funding.donations (Funding.funding p')))
  ∧ Project.volunteers (Funding.core p') = Project.volunteers (Funding.core p)
  ∧ (roster_ok (Funding.core p) → roster_ok (Funding.core p'))
  ∧ (Funding.required (Funding.funding p) = 0 →
     Funding.fundingPercentage p' = JS.of_Z 0).
Proof.
  revert p. induction calls as [|c calls IH]; intros p p'.
  - subst p'. cbn [fold_left fmap list_fmap].
    rewrite app_nil_r. unfold Funding.fundingPercentage.
    repeat split; try done; try (change (sumZ []) with 0; lia).
    by intros ->.
  - subst p'. cbn [fold_left].
    destruct (IH (addDonation_call p c))
      as (Hd & Hr & Hq & _ & Hv & Hok & Hpct).
    cbn zeta in *.
    set (p' := fold_left addDonation_call calls (addDonation_call p c)) in *.
    assert (Hd' : Funding.donations (Funding.funding p')
                  = Funding.donations (Funding.funding p)
                      ++ (donation_of <$> c :: calls)).
    { rewrite Hd. unfold addDonation_call at 1, Funding.addDonation.
      cbn [Funding.funding Funding.donations].
      by rewrite <- app_assoc, fmap_cons. }
    assert (Hr' : Funding.raised (Funding.funding p')
                  = Funding.raised (Funding.funding p)
                    + sumZ (dc_amount <$> c :: calls)).
    { rewrite Hr, fmap_cons, sumZ_cons. unfold addDonation_call at 1.
      unfold Funding.addDonation. cbn [Funding.funding Funding.raised]. lia. }
    split; [exact Hd' |]. split; [exact Hr' |].
    split; [by rewrite Hq |].
    split.
    { intros Hinv. rewrite Hr', Hd', donated_app, Hinv. f_equal.
      unfold donated. rewrite <- list_fmap_compose. reflexivity. }
    split; [rewrite Hv; unfold addDonation_call, Funding.addDonation;
            cbn [Funding.core]; apply save_volunteers |].
    split.
    { intros H. apply Hok. unfold addDonation_call, Funding.addDonation.
      cbn [Funding.core]. by apply save_roster_ok. }
    intros H0. apply Hpct. exact H0.
Qed.

(** X20. A sequence of [addDonation] calls whose amounts and running
    totals of [funding.raised] are integers within [-2^53, 2^53] appends
    one donation per call, in call order, to [funding.donations] and adds
    the sum of the amounts to [funding.raised], which is the Number the
    engine computes; an amount is not tested otherwise, so a negative one
    lowers [raised]. [funding.required] and the volunteer roster stay as
    they were, and a [raised] that was the sum of the recorded donations
    remains so. [fundingPercentage] is 0 whatever was raised when nothing
    is required. *)
Theorem donations_ledger (calls : list DonationCall) (p : Funding.Doc) :
  JS.safe (Funding.raised (Funding.funding p)) →
  sums_safe (Funding.raised (Funding.funding p)) (dc_amount <$> calls) →
  let p' := fold_left addDonation_call calls p in
  Funding.donations (Funding.funding p')
  = Funding.donations (Funding.funding p) ++ (donation_of <$> calls)
  ∧ Funding.raised (Funding.funding p')
    = Funding.raised (Funding.funding p) + sumZ (dc_amount <$> calls)
  ∧ JS.to_Z (running64 (Funding.raised (Funding.funding p))
               (dc_amount <$> calls))
    = Some (Funding.raised (Funding.funding p'))
  ∧ Funding.required (Funding.funding p')
    = Funding.required (Funding.funding p)
  ∧ (Funding.raised (Funding.funding p)
     = donated (Funding.donations (Funding.funding p)) →
     Funding.raised (Funding.funding p')
     = donated (Funding.donations (Funding.funding p')))
  ∧ Project.volunteers (Funding.core p') = Project.volunteers (Funding.core p)
  ∧ (roster_ok (Funding.core p) → roster_ok (Funding.core p'))
  ∧ (Funding.required (Funding.funding p) = 0 →
     Funding.fundingPercentage p' = JS.of_Z 0).
Proof.
  intros Hs Hsafe p'.
  destruct (addDonation_calls_funding calls p)
    as (Hd & Hr & Hq & Hinv & Hv & Hok & Hpct).
  fold p' in Hd, Hr, Hq, Hinv, Hv, Hok, Hpct.
  split; [exact Hd |]. split; [exact Hr |].
  split.
  { rewrite running64_safe, Hr by done. apply to_Z_of_Z.
    clear Hr. revert Hs Hsafe. generalize (Funding.raised (Funding.funding p)).
    induction (dc_amount <$> calls) as [|a l IH]; intros t Ht Hl.
    - by rewrite Z.add_0_r.
    - destruct Hl as (_ & Hta & Hrest). rewrite sumZ_cons, Z.add_assoc.
      by apply IH. }
  split; [exact Hq |]. split; [exact Hinv |]. split; [exact Hv |].
  split; [exact Hok | exact Hpct].
Qed.

Lemma donations_ledger_witness :
  let calls := [ {| dc_now := 10; dc_donor := ex_donor; dc_amount := 500;
                    dc_paymentId := "pay_1" |};
                 {| dc_now := 11; dc_donor := ex_donor; dc_amount := -200;
                    dc_paymentId := "pay_2" |} ] in
  let p' := fold_left addDonation_call calls ex_unfunded in
  Funding.raised (Funding.funding p') = 300
  ∧ length (Funding.donations (Funding.funding p')) = 2%nat
  ∧ Funding.fundingPercentage p' = JS.of_Z 0.
Proof.
  intros calls p'.
  destruct (donations_ledger calls ex_unfunded)
    as (Hd & Hr & _ & _ & _ & _ & _ & Hpct).
  - by vm_compute.
  - repeat split; by vm_compute.
  - fold p' in Hd, Hr, Hpct. split; [rewrite Hr; reflexivity |].
    split; [rewrite Hd; reflexivity | by apply Hpct].
Defined.

(** ** Approval of a project *)



(** ** Refusals *)

(** X22. Every answer other than 200 of the apply, volunteer-status,
    task-update, task-progress, user-status, project-approve, NGO-verify
    and NGO-follow handlers leaves the stored documents as they were: a
    refused application, status update, progress report, activation,
    approval, verification or follow request writes nothing. (Messages
    and reasons are strings of the ASCII range.) *)
Theorem refusals_change_nothing (now : Date) (actor : Routes.Actor)
    (i j : ObjectId) (db : Routes.DB) (ngos : gmap N NGO.t) :
  (∀ r db', Routes.applyToProject now actor i db = (r, db') →
            Routes.code r ≠ 200%nat → db' = db)
  ∧ (∀ s r db', Routes.updateVolunteer now actor i j s db = (r, db') →
                Routes.code r ≠ 200%nat → db' = db)
  ∧ (∀ s r db', Routes.updateTask_status actor i s db = (r, db') →
                Routes.code r ≠ 200%nat → db' = db)
  ∧ (∀ percentage message r db',
       JS.is_ascii message = true →
       TaskRoutes.updateTaskProgress now actor i percentage message db = (r, db') →
       Routes.code r ≠ 200%nat → db' = db)
  ∧ (∀ isActive r db', Admin.setUserStatus actor i isActive db = (r, db') →
                       Routes.code r ≠ 200%nat → db' = db)
  ∧ (∀ approved r db', Admin.approveProject actor i approved db = (r, db') →
                       Routes.code r ≠ 200%nat → db' = db)
  ∧ (∀ verified reason r ngos',
       (∀ s, reason = Some s → JS.is_ascii s = true) →
       Admin.verifyNGO now actor i verified reason ngos = (r, ngos') →
       Routes.code r ≠ 200%nat → ngos' = ngos)
  ∧ (∀ r ngos', NgoRoutes.follow now actor i ngos = (r, ngos') →
                Routes.code (NgoRoutes.reply r) ≠ 200%nat → ngos' = ngos).
Proof.
  repeat split; intros;
    match goal with
    | H : _ = (_, _) |- _ =>
        unfold Routes.applyToProject, Routes.updateVolunteer,
          Routes.updateTask_status, TaskRoutes.updateTaskProgress,
          Admin.setUserStatus, Admin.approveProject, Admin.verifyNGO,
          Admin.requireAdmin, NgoRoutes.follow in H;
        repeat (case_match; simplify_eq; try done);
        simplify_eq; try done
    end.
Qed.
